(** * Plugin host: configuration resolver and plugin lifecycle manager

    A shallow embedding of [core/config.py], [core/plugin_loader.py] and the
    hot-reload watcher of [core/server.py], with the properties the design
    document states about them.

    Python dictionaries are finite maps ([gmap]), Python sets are [gset],
    exceptions are explicit results, and the objects the code mutates in
    place (the loader's three tables, [sys.modules], the logger) are threaded
    through a small state-and-exception monad.  The configuration document
    is a tree, and, where it matters that its mappings are objects that can
    be shared, a store of mappings ([ConfigStore]).  Plugin bodies are
    opaque: of a module only the presence of [setup] and [teardown] and
    whether a call of them returns or raises an [Exception] is known.  The
    log lines of the configuration manager are left out; those of the loader
    and the watcher are events of the trace. *)

From Stdlib Require Import String Ascii ZArith List Bool Lia.
From stdpp Require Import base option gmap strings list fin_maps.

Set Warnings "-register-all".
Set Default Proof Using "Type".
Local Open Scope string_scope.

(** ** Python string primitives used by the code *)

Module PyStr.

(** [s.startswith(p)] *)
Definition startswith (s p : string) : bool := String.prefix p s.

(** [s.endswith(p)] *)
Definition endswith (s p : string) : bool :=
  let n := String.length s in
  let m := String.length p in
  (m <=? n)%nat && String.eqb (String.substring (n - m) m s) p.

(** [s[a:-b]] for a slice that drops [a] leading and [b] trailing
    characters (empty when the string is too short). *)
Definition slice (a b : nat) (s : string) : string :=
  String.substring a (String.length s - a - b) s.

(** [s.split(".")]: never empty, an empty field between two dots. *)
Fixpoint split_dot (s : string) : list string :=
  match s with
  | EmptyString => [EmptyString]
  | String c rest =>
      if Ascii.eqb c "."%char then EmptyString :: split_dot rest
      else match split_dot rest with
           | field :: fields => String c field :: fields
           | [] => [String c EmptyString]
           end
  end.

(** [os.path.join(directory, filename)] on a POSIX host. *)
Definition os_path_join (directory filename : string) : string :=
  if startswith filename "/" then filename
  else if String.eqb directory "" || endswith directory "/"
       then directory ++ filename
       else directory ++ "/" ++ filename.

End PyStr.

(** ** The configuration document *)

(** What [json.load] returns.  Numbers are carried as integers: the code
    never computes with them. *)
Inductive value : Type :=
  | VNull
  | VBool (b : bool)
  | VNum (z : Z)
  | VStr (s : string)
  | VList (items : list value)
  | VDict (entries : gmap string value).

Definition is_dict (v : value) : bool :=
  match v with VDict _ => true | _ => false end.

(** [needle == item] for a string [needle] and a JSON [item]: only an equal
    string compares equal. *)
Definition str_eq_value (needle : string) (item : value) : bool :=
  match item with VStr s => String.eqb needle s | _ => false end.

Module ConfigManager.

(** The process environment, [os.environ]. *)
Abbreviation environ := (gmap string string).

(** [value.startswith("${") and value.endswith("}")] *)
Definition is_env_ref (s : string) : bool :=
  PyStr.startswith s "${" && PyStr.endswith s "}".

(** One entry of [_process_env_vars]: a mapping is walked recursively, a
    string of the form above is replaced by
    [os.environ.get(value[2:-1], "")], anything else is left alone. *)
Fixpoint process_entry (env : environ) (v : value) : value :=
  match v with
  | VDict d => VDict (process_entry env <$> d)
  | VStr s =>
      if is_env_ref s
      then VStr (default "" (env !! PyStr.slice 2 1 s))
      else VStr s
  | _ => v
  end.

(** [_process_env_vars(config_dict)]: every item of the dictionary. *)
Definition _process_env_vars (env : environ) (config_dict : gmap string value)
  : gmap string value :=
  process_entry env <$> config_dict.

(** [_get_default_config()] *)
Definition _get_default_config : value :=
  VDict {[
    "server" := VDict {[
      "name" := VStr "template-mcp";
      "transport" := VStr "stdio";
      "log_level" := VStr "info";
      "debug" := VBool true ]};
    "plugins" := VDict {[
      "directories" := VDict {[
        "resources" := VStr "plugins/resources";
        "prompts" := VStr "plugins/prompts";
        "tools" := VStr "plugins/tools";
        "sampling" := VStr "plugins/sampling" ]};
      "hot_reload" := VBool false;
      "disabled" := VList [] ]} ]}.

(** The loop of [get]: one key at a time, [default] as soon as the current
    value is not a dictionary or lacks the key. *)
Fixpoint get_keys (v : value) (keys : list string) (dflt : value) : value :=
  match keys with
  | [] => v
  | key :: keys' =>
      match v with
      | VDict d =>
          match d !! key with
          | Some v' => get_keys v' keys' dflt
          | None => dflt
          end
      | _ => dflt
      end
  end.

(** [get(key_path, default)] *)
Definition get (config : value) (key_path : string) (dflt : value) : value :=
  get_keys config (PyStr.split_dot key_path) dflt.

(** The loop of [set]: intermediate dictionaries are created for absent
    keys; reaching a value that is not a dictionary raises ([None]).  An
    exception can only come from an existing value, before anything was
    created, so a failed [set] leaves the document as it was.  The document
    is a tree here, as [json.load] returns it: [set] gives the new tree.
    The source writes in place and stores the caller's object itself, so a
    mapping can come to sit at two places of the document; that is the
    subject of [ConfigStore] below, where mappings live in a store. *)
Fixpoint set_keys (v : value) (keys : list string) (x : value) : option value :=
  match v with
  | VDict d =>
      match keys with
      | [] => None
      | [key] => Some (VDict (<[key := x]> d))
      | key :: keys' =>
          child ← set_keys (default (VDict ∅) (d !! key)) keys' x;
          Some (VDict (<[key := child]> d))
      end
  | _ => None
  end.

(** [set(key_path, value)] *)
Definition set (config : value) (key_path : string) (x : value) : option value :=
  set_keys config (PyStr.split_dot key_path) x.

(** [load_config()].  [parsed] is what [open] and [json.load] give ([None]
    when either raises); [level_ok] tells whether
    [getattr(logging, s.upper())] names a level that [setLevel] accepts.
    Any exception inside the [try] installs the default configuration. *)
Definition load_config (env : environ) (level_ok : string → bool)
    (parsed : option value) : value :=
  match parsed with
  | Some (VDict d) =>
      let config := VDict (_process_env_vars env d) in
      match get config "server.log_level" (VStr "info") with
      | VStr lvl => if level_ok lvl then config else _get_default_config
      | _ => _get_default_config
      end
  | _ => _get_default_config
  end.

(** [get_plugin_directory(plugin_type)] *)
Definition get_plugin_directory (config : value) (plugin_type : string) : value :=
  get config ("plugins.directories." ++ plugin_type) (VStr ("plugins/" ++ plugin_type)).

(** [plugin_id in disabled]: membership in a list, substring test on a
    string, key test on a dictionary; [None] when Python raises
    [TypeError] (number, boolean, null). *)
Definition py_in (needle : string) (container : value) : option bool :=
  match container with
  | VList items => Some (existsb (str_eq_value needle) items)
  | VDict d => Some (bool_decide (is_Some (d !! needle)))
  | VStr s =>
      Some (match String.index 0 needle s with Some _ => true | None => false end)
  | _ => None
  end.

(** [is_plugin_disabled(plugin_id)] *)
Definition is_plugin_disabled (config : value) (plugin_id : string) : option bool :=
  py_in plugin_id (get config "plugins.disabled" (VList [])).

(** [get_tool_config(tool_id)] *)
Definition get_tool_config (config : value) (tool_id : string) : value :=
  get config ("tool_configs." ++ tool_id) (VDict ∅).

End ConfigManager.

(** ** The world outside the loader *)

(** What calling a plugin entry point does, as far as the host can tell:
    it returns, or it raises an exception of the [Exception] hierarchy, the
    ones [except Exception] catches.  Plugin code that leaves the
    interpreter through [SystemExit] or [KeyboardInterrupt], which no
    handler of the loader catches, has no outcome here: every statement
    about plugin code below is about code that returns or raises an
    [Exception]. *)
Inductive outcome := Returns | Raises.

(** A module object after [exec_module]: [mod_code] identifies the source
    text that was executed, [mod_setup] and [mod_teardown] are [None] when
    [hasattr] is false. *)
Record pymodule := PyModule {
  mod_code : nat;
  mod_setup : option outcome;
  mod_teardown : option outcome;
}.

(** A path on disk: a directory with its listing, a directory the process
    may not list ([os.listdir] raises [PermissionError]), or a file with
    what executing it as a module gives ([None]: [exec_module] raises an
    [Exception]).  The integer is the modification time, only ever compared
    for equality. *)
Inductive fs_node :=
  | FsDir (mtime : Z) (listing : list string)
  | FsLocked (mtime : Z)
  | FsFile (mtime : Z) (body : option pymodule).

Definition node_mtime (n : fs_node) : Z :=
  match n with FsDir t _ | FsLocked t | FsFile t _ => t end.

(** [cfg_loader] is the document of the [config_manager] that
    [plugin_loader.py] imported; [cfg_server] is the one [server.py] sees,
    which [MCPServer.__init__] rebinds when it is given a configuration path.
    [suffixes] are the file suffixes importlib has a loader for. *)
Record world := World {
  fs : gmap string fs_node;
  suffixes : list string;
  cfg_loader : value;
  cfg_server : value;
}.

(** ** Loader state, log and exceptions *)

Inductive level := DEBUG | INFO | WARNING | ERROR.

Inductive message :=
  | MsgModuleAlreadyLoaded (module_name : string)
  | MsgImporting (module_name file_path : string)
  | MsgCannotLoadFile (file_path : string)
  | MsgCallingSetup (plugin_id : string)
  | MsgLoaded (plugin_id plugin_type : string)
  | MsgNoSetup (plugin_id : string)
  | MsgLoadFailed (plugin_id : string)
  | MsgDirectoryMissing (directory : string)
  | MsgLoadingType (plugin_type : string)
  | MsgSkipDisabled (plugin_id : string)
  | MsgReloadNotLoaded (plugin_id : string)
  | MsgUnknownType (plugin_id : string)
  | MsgReloaded (plugin_id : string)
  | MsgReloadFailed (plugin_id : string)
  | MsgUnloadNotLoaded (plugin_id : string)
  | MsgUnloaded (plugin_id : string)
  | MsgUnloadFailed (plugin_id : string)
  | MsgChangeDetected (plugin_id : string)
  | MsgNewPlugin (plugin_id plugin_type : string)
  | MsgFileCheckFailed (file_path : string)
  | MsgCycleFailed.

(** What the host does that an observer can see, oldest first. *)
Inductive event :=
  | EvLog (lvl : level) (msg : message)
  | EvSetup (plugin_id : string) (m : pymodule)
  | EvTeardown (m : pymodule)
  | EvSleep (seconds : nat).

(** The three tables of [PluginLoader], the key set of [sys.modules], the
    two variables the watcher coroutine closes over, and the trace. *)
Record state := State {
  loaded_plugins : gmap string pymodule;
  plugin_paths : gmap string string;
  loaded_modules : gset string;
  sys_modules : gset string;
  plugin_dirs : list value;
  file_mtimes : gmap string Z;
  trace : list event;
}.

(** A fresh [PluginLoader(mcp)] in a fresh process. *)
Definition init_state : state :=
  State ∅ ∅ ∅ ∅ [] ∅ [].

(** The registry: what [PluginLoader] keeps about loaded plugins. *)
Definition registry (st : state)
  : gmap string pymodule * gmap string string * gset string :=
  (loaded_plugins st, plugin_paths st, loaded_modules st).

Inductive exn := TypeError | KeyError | OSError | PluginError.

Inductive result (A : Type) :=
  | Ok (a : A)
  | Exc (e : exn).
Arguments Ok {A} a.
Arguments Exc {A} e.

(** Computations that read and update the state and may raise; an
    exception keeps the updates made before it. *)
Definition M (A : Type) : Type := state → result A * state.

Definition ret {A} (a : A) : M A := λ st, (Ok a, st).

Definition bind {A B} (m : M A) (k : A → M B) : M B :=
  λ st, match m st with
        | (Ok a, st') => k a st'
        | (Exc e, st') => (Exc e, st')
        end.

Definition raise {A} (e : exn) : M A := λ st, (Exc e, st).

(** [try: body except Exception: handler] *)
Definition try_except {A} (body : M A) (handler : exn → M A) : M A :=
  λ st, match body st with
        | (Ok a, st') => (Ok a, st')
        | (Exc e, st') => handler e st'
        end.

(** A result computed without touching the state. *)
Definition lift {A} (r : result A) : M A := λ st, (r, st).

Definition get_state : M state := λ st, (Ok st, st).
Definition modify (f : state → state) : M unit := λ st, (Ok tt, f st).

Declare Scope py_scope.
Delimit Scope py_scope with py.
Notation "x <- m ;; k" := (bind m (λ x, k))
  (at level 100, m at next level, right associativity) : py_scope.
Notation "m ;;; k" := (bind m (λ _, k))
  (at level 100, right associativity) : py_scope.
Local Open Scope py_scope.

(** [for x in xs: body], left at the first exception. *)
Fixpoint for_each {A} (xs : list A) (body : A → M unit) : M unit :=
  match xs with
  | [] => ret tt
  | x :: xs' => body x ;;; for_each xs' body
  end.

Definition emit (e : event) : M unit :=
  modify (λ st, State (loaded_plugins st) (plugin_paths st) (loaded_modules st)
                      (sys_modules st) (plugin_dirs st) (file_mtimes st)
                      (trace st ++ [e])).

Definition logger (lvl : level) (msg : message) : M unit := emit (EvLog lvl msg).

Definition set_loaded_plugins (f : gmap string pymodule → gmap string pymodule) : M unit :=
  modify (λ st, State (f (loaded_plugins st)) (plugin_paths st) (loaded_modules st)
                      (sys_modules st) (plugin_dirs st) (file_mtimes st) (trace st)).

Definition set_plugin_paths (f : gmap string string → gmap string string) : M unit :=
  modify (λ st, State (loaded_plugins st) (f (plugin_paths st)) (loaded_modules st)
                      (sys_modules st) (plugin_dirs st) (file_mtimes st) (trace st)).

Definition set_loaded_modules (f : gset string → gset string) : M unit :=
  modify (λ st, State (loaded_plugins st) (plugin_paths st) (f (loaded_modules st))
                      (sys_modules st) (plugin_dirs st) (file_mtimes st) (trace st)).

Definition set_sys_modules (f : gset string → gset string) : M unit :=
  modify (λ st, State (loaded_plugins st) (plugin_paths st) (loaded_modules st)
                      (f (sys_modules st)) (plugin_dirs st) (file_mtimes st) (trace st)).

Definition set_plugin_dirs (dirs : list value) : M unit :=
  modify (λ st, State (loaded_plugins st) (plugin_paths st) (loaded_modules st)
                      (sys_modules st) dirs (file_mtimes st) (trace st)).

Definition set_file_mtimes (f : gmap string Z → gmap string Z) : M unit :=
  modify (λ st, State (loaded_plugins st) (plugin_paths st) (loaded_modules st)
                      (sys_modules st) (plugin_dirs st) (f (file_mtimes st)) (trace st)).

(** ** Operating-system and importlib calls *)

(** A configured directory used as a path.  Only strings are paths here.
    A dictionary, a list or null makes [os.path.exists] raise [TypeError],
    as below.  A number or a boolean does not: Python takes it for a file
    descriptor, and what follows depends on whether that descriptor is
    open; the model has no descriptors and raises for these too, so what is
    stated about a scan either asks for string directories or holds
    whichever way such a directory is treated. *)
Definition as_path (v : value) : M string :=
  match v with VStr p => ret p | _ => raise TypeError end.

Definition os_path_exists (w : world) (p : string) : bool :=
  bool_decide (is_Some (fs w !! p)).

(** [os.listdir(p)]: [NotADirectoryError] on a file, [PermissionError] on
    a directory that may not be listed, [FileNotFoundError] on nothing, all
    of them [OSError]. *)
Definition os_listdir (w : world) (p : string) : M (list string) :=
  match fs w !! p with
  | Some (FsDir _ names) => ret names
  | _ => raise OSError
  end.

Definition os_path_getmtime (w : world) (p : string) : M Z :=
  match fs w !! p with
  | Some n => ret (node_mtime n)
  | None => raise OSError
  end.

(** [importlib.util.spec_from_file_location]: [None] ([false]) when no
    loader claims the path's suffix. *)
Definition spec_from_file_location (w : world) (file_path : string) : bool :=
  existsb (PyStr.endswith file_path) (suffixes w).

(** [spec.loader.exec_module(module)] *)
Definition exec_module (w : world) (file_path : string) : M pymodule :=
  match fs w !! file_path with
  | Some (FsFile _ (Some m)) => ret m
  | _ => raise OSError
  end.

(** Calling an entry point of a plugin; [PluginError] stands for whatever
    [Exception] the plugin raises. *)
Definition call (o : outcome) : M unit :=
  match o with Returns => ret tt | Raises => raise PluginError end.

(** [filename.endswith(".py") and not filename.startswith("__")] *)
Definition is_plugin_file (filename : string) : bool :=
  PyStr.endswith filename ".py" && negb (PyStr.startswith filename "__").

Definition plugin_types : list string :=
  ["resources"; "prompts"; "tools"; "sampling"].

(** ** [PluginLoader] *)

Module PluginLoader.

(** [_load_plugin_file(plugin_id, file_path, plugin_type)].  The whole body
    is inside [try ... except Exception], so nothing escapes. *)
Definition _load_plugin_file (w : world) (plugin_id file_path plugin_type : string)
  : M unit :=
  try_except
    (let module_name := plugin_type ++ "." ++ plugin_id in
     st <- get_state ;;
     if bool_decide (module_name ∈ loaded_modules st) then
       logger DEBUG (MsgModuleAlreadyLoaded module_name)
     else
       logger DEBUG (MsgImporting module_name file_path) ;;;
       if negb (spec_from_file_location w file_path) then
         logger ERROR (MsgCannotLoadFile file_path)
       else
         set_sys_modules (λ s, {[module_name]} ∪ s) ;;;
         module <- exec_module w file_path ;;
         match mod_setup module with
         | Some setup =>
             logger DEBUG (MsgCallingSetup plugin_id) ;;;
             emit (EvSetup plugin_id module) ;;;
             call setup ;;;
             set_loaded_plugins (λ t, <[plugin_id := module]> t) ;;;
             set_plugin_paths (λ t, <[plugin_id := file_path]> t) ;;;
             set_loaded_modules (λ s, {[module_name]} ∪ s) ;;;
             logger INFO (MsgLoaded plugin_id plugin_type)
         | None =>
             logger WARNING (MsgNoSetup plugin_id)
         end)
    (λ _, logger ERROR (MsgLoadFailed plugin_id)).

(** [load_plugins_by_type(plugin_type)].  No [try] here: an exception of
    [os.listdir] or of the disabled test reaches the caller. *)
Definition load_plugins_by_type (w : world) (plugin_type : string) : M unit :=
  directory <- as_path (ConfigManager.get_plugin_directory (cfg_loader w) plugin_type) ;;
  if negb (os_path_exists w directory) then
    logger WARNING (MsgDirectoryMissing directory)
  else
    logger INFO (MsgLoadingType plugin_type) ;;;
    filenames <- os_listdir w directory ;;
    for_each filenames (λ filename,
      if is_plugin_file filename then
        let plugin_id := PyStr.slice 0 3 filename in
        match ConfigManager.is_plugin_disabled (cfg_loader w) plugin_id with
        | None => raise TypeError
        | Some true => logger INFO (MsgSkipDisabled plugin_id)
        | Some false =>
            let file_path := PyStr.os_path_join directory filename in
            _load_plugin_file w plugin_id file_path plugin_type
        end
      else ret tt).

(** [load_all_plugins()] *)
Definition load_all_plugins (w : world) : M unit :=
  for_each plugin_types (load_plugins_by_type w).

(** The loop of [reload_plugin] that finds the plugin type: the first type
    whose configured directory is a prefix of the stored path.
    [file_path.startswith] raises on a directory that is not a string. *)
Fixpoint find_type_by_prefix (config : value) (file_path : string)
    (types : list string) : result (option string) :=
  match types with
  | [] => Ok None
  | t :: types' =>
      match ConfigManager.get_plugin_directory config t with
      | VStr directory =>
          if PyStr.startswith file_path directory then Ok (Some t)
          else find_type_by_prefix config file_path types'
      | _ => Exc TypeError
      end
  end.

(** [reload_plugin(plugin_id)] *)
Definition reload_plugin (w : world) (plugin_id : string) : M bool :=
  st <- get_state ;;
  match loaded_plugins st !! plugin_id, plugin_paths st !! plugin_id with
  | Some _, Some file_path =>
      try_except
        (found <- lift (find_type_by_prefix (cfg_loader w) file_path plugin_types) ;;
         match found with
         | None =>
             logger ERROR (MsgUnknownType plugin_id) ;;;
             ret false
         | Some plugin_type =>
             let module_name := plugin_type ++ "." ++ plugin_id in
             set_sys_modules (λ s, s ∖ {[module_name]}) ;;;
             set_loaded_plugins (λ t, delete plugin_id t) ;;;
             set_loaded_modules (λ s, s ∖ {[module_name]}) ;;;
             _load_plugin_file w plugin_id file_path plugin_type ;;;
             logger INFO (MsgReloaded plugin_id) ;;;
             ret true
         end)
        (λ _, logger ERROR (MsgReloadFailed plugin_id) ;;; ret false)
  | _, _ =>
      logger WARNING (MsgReloadNotLoaded plugin_id) ;;;
      ret false
  end.

(** [get_loaded_plugins()]: a copy of the table. *)
Definition get_loaded_plugins : M (gmap string pymodule) :=
  st <- get_state ;; ret (loaded_plugins st).

(** [unload_plugin(plugin_id)] *)
Definition unload_plugin (plugin_id : string) : M bool :=
  st <- get_state ;;
  match loaded_plugins st !! plugin_id with
  | None =>
      logger WARNING (MsgUnloadNotLoaded plugin_id) ;;;
      ret false
  | Some module =>
      try_except
        (match mod_teardown module with
         | Some teardown => emit (EvTeardown module) ;;; call teardown
         | None => ret tt
         end ;;;
         set_loaded_plugins (λ t, delete plugin_id t) ;;;
         st' <- get_state ;;
         match plugin_paths st' !! plugin_id with
         | None => raise KeyError
         | Some _ =>
             for_each plugin_types (λ t,
               let module_name := t ++ "." ++ plugin_id in
               set_sys_modules (λ s, s ∖ {[module_name]}) ;;;
               set_loaded_modules (λ s, s ∖ {[module_name]})) ;;;
             set_plugin_paths (λ t, delete plugin_id t) ;;;
             logger INFO (MsgUnloaded plugin_id) ;;;
             ret true
         end)
        (λ _, logger ERROR (MsgUnloadFailed plugin_id) ;;; ret false)
  end.

End PluginLoader.

(** ** The hot-reload watcher of [MCPServer._setup_hot_reload] *)

Module MCPServer.

(** Python's truth value of a configuration value. *)
Definition truthy (v : value) : bool :=
  match v with
  | VNull => false
  | VBool b => b
  | VNum z => negb (Z.eqb z 0)
  | VStr s => negb (String.eqb s "")
  | VList items => negb (Nat.eqb (length items) 0)
  | VDict d => negb (Nat.eqb (size d) 0)
  end.

(** [config_manager.get("plugins.hot_reload", False)]: the test under which
    [__init__] starts the watcher. *)
Definition hot_reload_enabled (w : world) : bool :=
  truthy (ConfigManager.get (cfg_server w) "plugins.hot_reload" (VBool false)).

(** The statements of [_watch_files] before its [while True]: the list of
    directories is read from the configuration, the table of modification
    times starts empty. *)
Definition watch_start (w : world) : M unit :=
  set_plugin_dirs
    (map (ConfigManager.get_plugin_directory (cfg_server w)) plugin_types) ;;;
  set_file_mtimes (λ _, ∅).

(** The type whose configured directory [==] the scanned one. *)
Definition find_type_by_directory (config : value) (directory : string)
  : option string :=
  List.find
    (λ t, str_eq_value directory (ConfigManager.get_plugin_directory config t))
    plugin_types.

(** What the watcher does for one plugin file of a directory. *)
Definition watch_file (w : world) (directory filename : string) : M unit :=
  let file_path := PyStr.os_path_join directory filename in
  let plugin_id := PyStr.slice 0 3 filename in
  try_except
    (mtime <- os_path_getmtime w file_path ;;
     st <- get_state ;;
     if bool_decide (file_mtimes st !! file_path = Some mtime) then ret tt
     else
       set_file_mtimes (λ t, <[file_path := mtime]> t) ;;;
       match loaded_plugins st !! plugin_id with
       | Some _ =>
           logger INFO (MsgChangeDetected plugin_id) ;;;
           _ <- PluginLoader.reload_plugin w plugin_id ;;
           ret tt
       | None =>
           match find_type_by_directory (cfg_server w) directory with
           | Some plugin_type =>
               logger INFO (MsgNewPlugin plugin_id plugin_type) ;;;
               PluginLoader._load_plugin_file w plugin_id file_path plugin_type
           | None => ret tt
           end
       end)
    (λ _, logger ERROR (MsgFileCheckFailed file_path)).

(** One turn of the [while True] loop, up to and including the sleep. *)
Definition watch_cycle (w : world) : M unit :=
  try_except
    (st <- get_state ;;
     for_each (plugin_dirs st) (λ dir,
       directory <- as_path dir ;;
       if negb (os_path_exists w directory) then ret tt
       else
         filenames <- os_listdir w directory ;;
         for_each filenames (λ filename,
           if is_plugin_file filename then watch_file w directory filename
           else ret tt)))
    (λ _, logger ERROR MsgCycleFailed) ;;;
  emit (EvSleep 5).

End MCPServer.

(** ** A dotted path, as the design document reads it *)

(** The design document's reading of a dotted path, stated on the document
    alone.  A path is [stored] when every key is present and every value on
    the way is a mapping; it is [broken] when some key is absent or some
    intermediate value is not a mapping. *)
Inductive path_stored : value → list string → value → Prop :=
  | stored_here v :
      path_stored v [] v
  | stored_deeper d key keys v x :
      d !! key = Some v →
      path_stored v keys x →
      path_stored (VDict d) (key :: keys) x.

Inductive path_broken : value → list string → Prop :=
  | broken_not_mapping v key keys :
      is_dict v = false →
      path_broken v (key :: keys)
  | broken_absent d key keys :
      d !! key = None →
      path_broken (VDict d) (key :: keys)
  | broken_deeper d key keys v :
      d !! key = Some v →
      path_broken v keys →
      path_broken (VDict d) (key :: keys).

(** A key that holds no dot, and keys joined by dots: the dotted paths
    callers write. *)
Fixpoint dot_free (s : string) : bool :=
  match s with
  | EmptyString => true
  | String c rest => negb (Ascii.eqb c ".") && dot_free rest
  end.

Fixpoint join_dot (keys : list string) : string :=
  match keys with
  | [] => ""
  | [key] => key
  | key :: keys' => key ++ "." ++ join_dot keys'
  end.

(** ** States the loader reaches *)

(** The state with more events at the end of its trace. *)
Definition add_trace (evs : list event) (st : state) : state :=
  State (loaded_plugins st) (plugin_paths st) (loaded_modules st)
        (sys_modules st) (plugin_dirs st) (file_mtimes st) (trace st ++ evs).

(** The state in which [sys.modules] has the name of an imported module. *)
Definition add_sys_module (module_name : string) (st : state) : state :=
  State (loaded_plugins st) (plugin_paths st) (loaded_modules st)
        ({[module_name]} ∪ sys_modules st) (plugin_dirs st) (file_mtimes st)
        (trace st).

(** The state in which a plugin is registered. *)
Definition add_plugin (plugin_id file_path module_name : string) (m : pymodule)
    (st : state) : state :=
  State (<[plugin_id := m]> (loaded_plugins st))
        (<[plugin_id := file_path]> (plugin_paths st))
        ({[module_name]} ∪ loaded_modules st)
        (sys_modules st) (plugin_dirs st) (file_mtimes st) (trace st).

(** The state from which a reload starts its inner load. *)
Definition drop_plugin (plugin_id module_name : string) (st : state) : state :=
  State (delete plugin_id (loaded_plugins st)) (plugin_paths st)
        (loaded_modules st ∖ {[module_name]})
        (sys_modules st ∖ {[module_name]}) (plugin_dirs st) (file_mtimes st)
        (trace st).

(** What importing a path gives: the module, when a loader takes the path
    and executing the file does not raise. *)
Definition imported (w : world) (file_path : string) : option pymodule :=
  match fs w !! file_path with
  | Some (FsFile _ (Some m)) => Some m
  | _ => None
  end.

(** The inner load of a reload cannot succeed: no loader takes the path, or
    executing the file raises, or [setup] is missing or raises. *)
Definition load_fails (w : world) (file_path : string) : Prop :=
  spec_from_file_location w file_path = false ∨
  imported w file_path = None ∨
  ∃ m, imported w file_path = Some m ∧ mod_setup m ≠ Some Returns.

(** ** What every load path leaves alone *)

(** An event other than a call of [teardown]. *)
Definition no_teardown (e : event) : Prop := ∀ m, e ≠ EvTeardown m.

(** [extends st st']: the watcher's directory list is the same, and the
    trace grew by events none of which is a call of [teardown]. *)
Definition extends (st st' : state) : Prop :=
  plugin_dirs st' = plugin_dirs st ∧
  ∃ evs, trace st' = (trace st ++ evs)%list ∧ Forall no_teardown evs.

Definition steady {A} (m : M A) : Prop := ∀ st, extends st (m st).2.

(** The [while True] loop of [_watch_files], one world per turn: files and
    configuration may change between two turns. *)
Fixpoint watch_cycles (ws : list world) : M unit :=
  match ws with
  | [] => ret tt
  | w :: ws' => MCPServer.watch_cycle w ;;; watch_cycles ws'
  end.

(** ** Three statements of the design document that the code does not meet *)

(** What C3 asks of an unload: a teardown that raises does not keep the
    plugin's entry and module identity in the loader. *)
Definition teardown_error_does_not_block_removal (st : state) (plugin_id : string)
  : Prop :=
  ∀ m, loaded_plugins st !! plugin_id = Some m →
       mod_teardown m = Some Raises →
       let st' := (PluginLoader.unload_plugin plugin_id st).2 in
       loaded_plugins st' !! plugin_id = None ∧
       plugin_paths st' !! plugin_id = None ∧
       ∀ t, t ∈ plugin_types → t ++ "." ++ plugin_id ∉ loaded_modules st'.

(** What C4 asks of a reload: the outgoing module's [teardown] is called,
    and later the new module's [setup]. *)
Definition reload_runs_teardown_first (w : world) (st : state) (plugin_id : string)
  : Prop :=
  ∀ old, loaded_plugins st !! plugin_id = Some old →
         is_Some (mod_teardown old) →
         ∃ new pre mid post,
           trace (PluginLoader.reload_plugin w plugin_id st).2
           = (trace st ++ pre ++ [EvTeardown old] ++ mid
                ++ [EvSetup plugin_id new] ++ post)%list.

(** C8 read on the watcher's own list: after a poll cycle, the list is the
    one the current configuration gives. *)
Definition cycle_recomputes_dirs (w : world) (st : state) : Prop :=
  plugin_dirs (MCPServer.watch_cycle w st).2
  = map (ConfigManager.get_plugin_directory (cfg_server w)) plugin_types.

(** ** Documents, files and loader states for the examples *)

(** A document for the examples: ["a"] maps to a mapping holding a string
    under ["b"] and a sequence under ["l"]. *)
Definition sample_document : value :=
  VDict {[ "a" := VDict {[ "b" := VStr "${FOO}"; "l" := VList [VStr "${FOO}"] ]};
           "n" := VNum 3 ]}.

(** A world with one valid tools plugin, [probe.py], used by the examples. *)
Definition probe_module : pymodule := PyModule 1 (Some Returns) (Some Returns).

Definition probe_world : world :=
  World {[ "plugins/tools" := FsDir 10 ["probe.py"];
           "plugins/tools/probe.py" := FsFile 11 (Some probe_module) ]}
        [".py"; ".pyc"]
        ConfigManager._get_default_config
        ConfigManager._get_default_config.

(** The loader after [probe.py] was loaded from [probe_world]. *)
Definition probe_loaded : state :=
  (PluginLoader._load_plugin_file probe_world "probe" "plugins/tools/probe.py"
     "tools" init_state).2.

(** A plugin file whose [setup] raises. *)
Definition faulty_module : pymodule := PyModule 2 (Some Raises) None.

Definition faulty_world : world :=
  World {[ "plugins/tools" := FsDir 10 ["faulty.py"];
           "plugins/tools/faulty.py" := FsFile 12 (Some faulty_module) ]}
        [".py"; ".pyc"]
        ConfigManager._get_default_config
        ConfigManager._get_default_config.

(** [faulty.py] registered by hand, as if an earlier version of the file
    had loaded. *)
Definition faulty_loaded : state :=
  State {[ "faulty" := probe_module ]}
        {[ "faulty" := "plugins/tools/faulty.py" ]}
        {[ "tools.faulty" ]} {[ "tools.faulty" ]} [] ∅ [].

(** A loaded plugin whose [teardown] raises. *)
Definition stubborn_module : pymodule := PyModule 3 (Some Returns) (Some Raises).

Definition stubborn_loaded : state :=
  State {[ "stubborn" := stubborn_module ]}
        {[ "stubborn" := "plugins/tools/stubborn.py" ]}
        {[ "tools.stubborn" ]} {[ "tools.stubborn" ]} [] ∅ [].

(** [probe_world] after [set("plugins.directories.tools", "extra/tools")],
    with a valid plugin [fresh.py] in the new directory. *)
Definition fresh_module : pymodule := PyModule 4 (Some Returns) None.

Definition moved_config : value :=
  default ConfigManager._get_default_config
    (ConfigManager.set ConfigManager._get_default_config
       "plugins.directories.tools" (VStr "extra/tools")).

Definition moved_world : world :=
  World {[ "plugins/tools" := FsDir 10 ["probe.py"];
           "plugins/tools/probe.py" := FsFile 11 (Some probe_module);
           "extra/tools" := FsDir 20 ["fresh.py"];
           "extra/tools/fresh.py" := FsFile 21 (Some fresh_module) ]}
        [".py"; ".pyc"]
        moved_config
        moved_config.

(** The watcher started under [probe_world], after its first turn. *)
Definition watching : state :=
  ((MCPServer.watch_start probe_world ;;; MCPServer.watch_cycle probe_world)
     init_state).2.

(** A configuration that disables [secret] and turns hot reload on, and a
    valid plugin file [secret.py] in the tools directory. *)
Definition secret_module : pymodule := PyModule 5 (Some Returns) None.

Definition guarded_config : value :=
  VDict {[
    "server" := VDict {[ "name" := VStr "template-mcp"; "log_level" := VStr "info" ]};
    "plugins" := VDict {[
      "directories" := VDict {[ "tools" := VStr "plugins/tools" ]};
      "hot_reload" := VBool true;
      "disabled" := VList [VStr "secret"] ]} ]}.

Definition guarded_world : world :=
  World {[ "plugins/tools" := FsDir 10 ["secret.py"];
           "plugins/tools/secret.py" := FsFile 30 (Some secret_module) ]}
        [".py"; ".pyc"]
        guarded_config
        guarded_config.

(** ** Writing through a dotted path *)

(** [set] cannot go through: the value reached, the root included, is not a
    mapping although a key must still be looked up or written in it. *)
Inductive set_blocked : value → list string → Prop :=
  | blocked_here v keys :
      is_dict v = false →
      set_blocked v keys
  | blocked_deeper d key key' keys v :
      d !! key = Some v →
      set_blocked v (key' :: keys) →
      set_blocked (VDict d) (key :: key' :: keys).

(** Two key lists that part ways at some key, neither running along the
    other. *)
Inductive diverge : list string → list string → Prop :=
  | diverge_here key key' keys keys' :
      key ≠ key' →
      diverge (key :: keys) (key' :: keys')
  | diverge_later key keys keys' :
      diverge keys keys' →
      diverge (key :: keys) (key :: keys').

(** ** What an unload leaves behind *)

(** A set of module names without the names a plugin id has under the four
    types, taken out in the order [unload_plugin] goes through them. *)
Definition drop_names (plugin_id : string) (names : gset string) : gset string :=
  foldl (λ acc t, acc ∖ {[t ++ "." ++ plugin_id]}) names plugin_types.

(** The events of an unload that goes through. *)
Definition unload_events (plugin_id : string) (m : pymodule) : list event :=
  match mod_teardown m with
  | Some _ => [EvTeardown m; EvLog INFO (MsgUnloaded plugin_id)]
  | None => [EvLog INFO (MsgUnloaded plugin_id)]
  end.

(** ** Invariants and relations between the states of the loader *)

(** Every loaded plugin has a path, and every loaded module name is in
    [sys.modules]. *)
Definition loader_inv (st : state) : Prop :=
  dom (loaded_plugins st) ⊆ dom (plugin_paths st) ∧
  loaded_modules st ⊆ sys_modules st.

(** A computation whose final state is always related to its initial one. *)
Definition respects (R : relation state) {A} (m : M A) : Prop :=
  ∀ st, R st (m st).2.

(** A computation that never lets an exception out. *)
Definition returns {A} (m : M A) : Prop :=
  ∀ st, ∃ a, (m st).1 = Ok a.

(** The invariant is kept. *)
Definition keeps_inv (st st' : state) : Prop := loader_inv st → loader_inv st'.

(** The plugin id has the entry it had, and its [setup] was not called. *)
Definition untouched (plugin_id : string) (st st' : state) : Prop :=
  loaded_plugins st' !! plugin_id = loaded_plugins st !! plugin_id ∧
  ∃ evs, trace st' = (trace st ++ evs)%list ∧
         Forall (λ e, ∀ m, e ≠ EvSetup plugin_id m) evs.

(** The watcher's table of modification times is the same. *)
Definition same_mtimes (st st' : state) : Prop :=
  file_mtimes st' = file_mtimes st.

(** ** More states for the examples *)

(** A plugin registered from a path outside every configured directory. *)
Definition stray_loaded : state :=
  State {[ "stray" := probe_module ]} {[ "stray" := "elsewhere/stray.py" ]}
        {[ "tools.stray" ]} {[ "tools.stray" ]} [] ∅ [].

(** A world with the same file name under two types. *)
Definition twin_module : pymodule := PyModule 6 (Some Returns) (Some Returns).

Definition twin_world : world :=
  World {[ "plugins/prompts" := FsDir 10 ["probe.py"];
           "plugins/prompts/probe.py" := FsFile 13 (Some twin_module);
           "plugins/tools" := FsDir 10 ["probe.py"];
           "plugins/tools/probe.py" := FsFile 11 (Some probe_module) ]}
        [".py"; ".pyc"]
        ConfigManager._get_default_config
        ConfigManager._get_default_config.

(** ** What can be done to a loader *)

(** The calls a server and its watcher make on the loader, each in the
    world it finds at that time. *)
Inductive op :=
  | OpLoadAll (w : world)
  | OpLoadFile (w : world) (plugin_id file_path plugin_type : string)
  | OpReload (w : world) (plugin_id : string)
  | OpUnload (plugin_id : string)
  | OpWatchStart (w : world)
  | OpWatchCycle (w : world).

Definition run_op (o : op) : M unit :=
  match o with
  | OpLoadAll w => PluginLoader.load_all_plugins w
  | OpLoadFile w plugin_id file_path plugin_type =>
      PluginLoader._load_plugin_file w plugin_id file_path plugin_type
  | OpReload w plugin_id => _ <- PluginLoader.reload_plugin w plugin_id ;; ret tt
  | OpUnload plugin_id => _ <- PluginLoader.unload_plugin plugin_id ;; ret tt
  | OpWatchStart w => MCPServer.watch_start w
  | OpWatchCycle w => MCPServer.watch_cycle w
  end.

(** The state after a sequence of calls; a call that raises leaves the state
    it reached, and the next call goes on from there. *)
Definition run_ops (ops : list op) (st : state) : state :=
  foldl (λ st o, (run_op o st).2) st ops.

(** The body of the loop of [load_plugins_by_type], for one file name. *)
Definition scan_file (w : world) (plugin_type directory filename : string)
  : M unit :=
  if is_plugin_file filename then
    let plugin_id := PyStr.slice 0 3 filename in
    match ConfigManager.is_plugin_disabled (cfg_loader w) plugin_id with
    | None => raise TypeError
    | Some true => logger INFO (MsgSkipDisabled plugin_id)
    | Some false =>
        let file_path := PyStr.os_path_join directory filename in
        PluginLoader._load_plugin_file w plugin_id file_path plugin_type
    end
  else ret tt.

(** A module name is among the loaded modules; and, when it is, the plugin
    has this module and this path. *)
Definition registered (module_name : string) (st : state) : Prop :=
  module_name ∈ loaded_modules st.

Definition has_entry (plugin_id file_path module_name : string) (m : pymodule)
    (st : state) : Prop :=
  registered module_name st →
  loaded_plugins st !! plugin_id = Some m ∧
  plugin_paths st !! plugin_id = Some file_path.

(** What [watch_file] does once it has seen that the file is new or has
    changed. *)
Definition watch_changed (w : world) (directory filename : string) (st : state)
  : M unit :=
  let file_path := PyStr.os_path_join directory filename in
  let plugin_id := PyStr.slice 0 3 filename in
  match loaded_plugins st !! plugin_id with
  | Some _ =>
      logger INFO (MsgChangeDetected plugin_id) ;;;
      _ <- PluginLoader.reload_plugin w plugin_id ;;
      ret tt
  | None =>
      match MCPServer.find_type_by_directory (cfg_server w) directory with
      | Some plugin_type =>
          logger INFO (MsgNewPlugin plugin_id plugin_type) ;;;
          PluginLoader._load_plugin_file w plugin_id file_path plugin_type
      | None => ret tt
      end
  end.

(** A configured directory that, if it is on disk at all, is a directory. *)
Definition directory_ok (w : world) (plugin_type : string) : Prop :=
  ∃ directory,
    ConfigManager.get_plugin_directory (cfg_loader w) plugin_type = VStr directory ∧
    ∀ n, fs w !! directory = Some n → ∃ mtime listing, n = FsDir mtime listing.

(** A world whose configuration has [null] for [plugins.disabled]. *)
Definition careless_config : value :=
  VDict {[ "plugins" := VDict {[ "disabled" := VNull ]} ]}.

Definition careless_world : world :=
  World {[ "plugins/tools" := FsDir 10 ["__pycache__"; "notes.txt"; "probe.py"];
           "plugins/tools/probe.py" := FsFile 11 (Some probe_module) ]}
        [".py"; ".pyc"]
        careless_config
        careless_config.

(** A world in which the directory of the tools plugins may not be
    listed. *)
Definition locked_world : world :=
  World {[ "plugins/tools" := FsLocked 10 ]}
        [".py"; ".pyc"]
        ConfigManager._get_default_config
        ConfigManager._get_default_config.

(** ** What a poll cycle looks at *)

(** The body of the outer loop of [_watch_files], for one entry of the
    watcher's list. *)
Definition watch_directory (w : world) (dir : value) : M unit :=
  directory <- as_path dir ;;
  if negb (os_path_exists w directory) then ret tt
  else
    filenames <- os_listdir w directory ;;
    for_each filenames (λ filename,
      if is_plugin_file filename then MCPServer.watch_file w directory filename
      else ret tt).

(** A plugin file in the listing of a directory of the watcher's list. *)
Definition listed (w : world) (st : state) (directory filename : string) : Prop :=
  VStr directory ∈ plugin_dirs st ∧
  ∃ mtime listing,
    fs w !! directory = Some (FsDir mtime listing) ∧
    filename ∈ listing ∧
    is_plugin_file filename = true.

(** Every entry of the watcher's list is a string that names a directory
    that can be listed, or nothing. *)
Definition dirs_listable (w : world) (st : state) : Prop :=
  ∀ dir, dir ∈ plugin_dirs st →
    ∃ directory, dir = VStr directory ∧
      ∀ n, fs w !! directory = Some n → ∃ mtime listing, n = FsDir mtime listing.

(** A file has been looked at in this world: its modification time is in
    the watcher's table. *)
Definition examined (w : world) (file_path : string) (st : state) : Prop :=
  ∃ n, fs w !! file_path = Some n ∧
       file_mtimes st !! file_path = Some (node_mtime n).

(** C8 read on what a poll cycle does: it goes through the directories
    the current configuration names, so every plugin file of such a
    directory has been looked at when the cycle ends. *)
Definition cycle_scans_configured_dirs (w : world) (st : state) : Prop :=
  ∀ plugin_type directory mtime listing filename,
    plugin_type ∈ plugin_types →
    ConfigManager.get_plugin_directory (cfg_server w) plugin_type = VStr directory →
    fs w !! directory = Some (FsDir mtime listing) →
    filename ∈ listing →
    is_plugin_file filename = true →
    is_Some (fs w !! PyStr.os_path_join directory filename) →
    examined w (PyStr.os_path_join directory filename)
      (MCPServer.watch_cycle w st).2.

(** The modification time the watcher has for one path is the same. *)
Definition same_mtime_at (file_path : string) (st st' : state) : Prop :=
  file_mtimes st' !! file_path = file_mtimes st !! file_path.

(** ** The configuration as a store of mutable mappings *)

Module ConfigStore.

(** The identity of a mapping object. *)
Abbreviation loc := nat.

(** What a variable or an entry of a mapping holds: a reference to a
    mapping, or something [get] and [set] never look into. *)
Inductive obj :=
  | ONull
  | OBool (b : bool)
  | ONum (z : Z)
  | OStr (s : string)
  | OList (items : list value)
  | ODict (l : loc).

(** The mappings that exist, by identity. *)
Abbreviation heap := (gmap loc (gmap string obj)).

(** [d[key]] for the mapping at [l], [None] when the key is absent. *)
Definition slot (h : heap) (l : loc) (key : string) : option obj :=
  d ← h !! l; d !! key.

(** The loop of [get]. *)
Fixpoint get_keys (h : heap) (v : obj) (keys : list string) (dflt : obj) : obj :=
  match keys with
  | [] => v
  | key :: keys' =>
      match v with
      | ODict l =>
          match slot h l key with
          | Some v' => get_keys h v' keys' dflt
          | None => dflt
          end
      | _ => dflt
      end
  end.

(** [get(key_path, default)], [config] being what [self.config] refers to. *)
Definition get (h : heap) (config : obj) (key_path : string) (dflt : obj) : obj :=
  get_keys h config (PyStr.split_dot key_path) dflt.

(** The loop of [set] and the assignment after it: the mappings are
    written in place, [{}] is a mapping that did not exist before, and the
    caller's object [x] itself is stored.  [None] when Python raises, which
    it does on reaching anything but a mapping (a reference to a mapping
    that is not in the store does not occur in Python; it raises here). *)
Fixpoint set_keys (h : heap) (v : obj) (keys : list string) (x : obj)
    {struct keys} : option heap :=
  match v with
  | ODict l =>
      match h !! l, keys with
      | Some d, [key] => Some (<[l := <[key := x]> d]> h)
      | Some d, key :: keys' =>
          match d !! key with
          | Some v' => set_keys h v' keys' x
          | None =>
              let l' := fresh (dom h) in
              set_keys (<[l' := ∅]> (<[l := <[key := ODict l']> d]> h))
                (ODict l') keys' x
          end
      | _, _ => None
      end
  | _ => None
  end.

(** [set(key_path, value)]: the store after the call, [None] when it
    raises. *)
Definition set (h : heap) (config : obj) (key_path : string) (x : obj)
  : option heap :=
  set_keys h config (PyStr.split_dot key_path) x.

(** The mapping a list of keys leads to. *)
Inductive reaches (h : heap) : obj → list string → loc → Prop :=
  | reaches_here l :
      reaches h (ODict l) [] l
  | reaches_deeper l0 key keys v l :
      slot h l0 key = Some v →
      reaches h v keys l →
      reaches h (ODict l0) (key :: keys) l.

(** A document that is a tree, as [json.load] returns it: every mapping
    reached exists, and no mapping is reached along two lists of keys. *)
Definition tree_shaped (h : heap) (config : obj) : Prop :=
  (∀ keys l, reaches h config keys l → is_Some (h !! l)) ∧
  (∀ keys1 keys2 l,
     reaches h config keys1 l → reaches h config keys2 l → keys1 = keys2).

(** A document [{"a": {"k": 1}}], and the same after
    [set("b", get("a"))]: one mapping under two keys. *)
Definition sample_heap : heap :=
  {[ 0 := {[ "a" := ODict 1 ]}; 1 := {[ "k" := ONum 1 ]} ]}.

Definition shared_heap : heap :=
  default sample_heap
    (set sample_heap (ODict 0) "b" (get sample_heap (ODict 0) "a" ONull)).

End ConfigStore.


(** * Properties *)

Example get_default_transport :
  ConfigManager.get ConfigManager._get_default_config "server.transport" VNull
  = VStr "stdio".
Proof. vm_compute. reflexivity. Qed.

(** ** Strings *)

Section string_facts.

Local Arguments String.append !_ _ / : simpl nomatch.

Lemma substring_0_app (a b : string) :
  String.substring 0 (String.length a) (a ++ b) = a.
Proof. induction a as [|c a IH]; simpl; [by destruct b | by rewrite IH]. Qed.

Lemma substring_length_app (a b : string) :
  String.substring (String.length a) (String.length b) (a ++ b) = b.
Proof.
  induction a as [|c a IH]; simpl; [|done].
  induction b as [|c b IH]; simpl; [done | by rewrite IH].
Qed.

Lemma length_app (a b : string) :
  String.length (a ++ b) = String.length a + String.length b.
Proof. induction a; simpl; auto. Qed.

Lemma endswith_app (a p : string) : PyStr.endswith (a ++ p) p = true.
Proof.
  unfold PyStr.endswith. rewrite length_app.
  apply andb_true_intro; split; [apply Nat.leb_le; lia|].
  replace (String.length a + String.length p - String.length p)
    with (String.length a) by lia.
  rewrite substring_length_app. apply String.eqb_refl.
Qed.

(** A string that ends with a one-character suffix is some string
    followed by that character. *)
Lemma endswith_char_inv (s : string) (c : ascii) :
  PyStr.endswith s (String c "") = true →
  ∃ r, s = r ++ String c "".
Proof.
  unfold PyStr.endswith. simpl String.length.
  induction s as [|a s IH]; simpl; [discriminate|].
  rewrite Nat.sub_0_r. destruct s as [|b s].
  - simpl. destruct (Ascii.eqb_spec a c) as [->|]; [|discriminate].
    intros _. by exists "".
  - intros H. destruct IH as [r ->].
    + simpl in *. by rewrite Nat.sub_0_r.
    + by exists (String a r).
Qed.

(** The test of [_process_env_vars] holds exactly of the strings
    ["${" ++ name ++ "}"], and the slice [[2:-1]] gives back [name]. *)
Lemma is_env_ref_spec (s : string) :
  ConfigManager.is_env_ref s = true ↔ ∃ name, s = "${" ++ name ++ "}".
Proof.
  unfold ConfigManager.is_env_ref, PyStr.startswith. split.
  - intros [Hp Hs]%andb_prop. apply prefix_correct in Hp.
    destruct s as [|a [|b s]]; simpl in Hp; try discriminate.
    injection Hp as -> -> _.
    apply endswith_char_inv in Hs as [r Hr].
    destruct r as [|x [|y r]]; simpl in Hr; try discriminate.
    injection Hr as _ _ ->. by exists r.
  - intros [name ->]. apply andb_true_intro; split.
    + apply prefix_correct. simpl. by destruct (name ++ "}").
    + apply (endswith_app ("${" ++ name) "}").
Qed.

Lemma env_ref_name (name : string) :
  PyStr.slice 2 1 ("${" ++ name ++ "}") = name.
Proof.
  unfold PyStr.slice. simpl. rewrite length_app. simpl.
  replace (String.length name + 1 - 0 - 1) with (String.length name) by lia.
  apply substring_0_app.
Qed.

End string_facts.

(** ** Configuration lookup *)

Section config_lookup.

Local Arguments String.append !_ _ / : simpl nomatch.

Lemma get_keys_stored v keys x dflt :
  path_stored v keys x → ConfigManager.get_keys v keys dflt = x.
Proof. induction 1 as [|d key keys v x Hk _ IH]; simpl; [done | by rewrite Hk]. Qed.

Lemma get_keys_broken v keys dflt :
  path_broken v keys → ConfigManager.get_keys v keys dflt = dflt.
Proof.
  induction 1 as [v key keys Hv|d key keys Hk|d key keys v Hk _ IH]; simpl.
  - by destruct v.
  - by rewrite Hk.
  - by rewrite Hk.
Qed.

Lemma path_stored_or_broken v keys :
  path_broken v keys ∨ ∃ x, path_stored v keys x.
Proof.
  revert v. induction keys as [|key keys IH]; intros v.
  - right. exists v. constructor.
  - destruct v as [| | | | |d]; try by (left; constructor).
    destruct (d !! key) as [v|] eqn:Hk; [|by left; apply broken_absent].
    destruct (IH v) as [Hb|[x Hx]].
    + left. by eapply broken_deeper.
    + right. exists x. by eapply stored_deeper.
Qed.

Lemma path_stored_not_broken v keys x :
  path_stored v keys x → ¬ path_broken v keys.
Proof.
  induction 1 as [|d key keys v x Hk _ IH]; inversion 1; simplify_eq; auto.
Qed.

Lemma split_dot_app_dot key rest :
  dot_free key = true →
  PyStr.split_dot (key ++ String "." rest) = key :: PyStr.split_dot rest.
Proof.
  induction key as [|c key IH]; simpl; [done|].
  intros [Hc Hk]%andb_prop. apply negb_true_iff in Hc. rewrite Hc.
  by rewrite (IH Hk).
Qed.

Lemma split_dot_dot_free key :
  dot_free key = true → PyStr.split_dot key = [key].
Proof.
  induction key as [|c key IH]; simpl; [done|].
  intros [Hc Hk]%andb_prop. apply negb_true_iff in Hc. rewrite Hc.
  by rewrite (IH Hk).
Qed.

Lemma split_dot_join keys :
  keys ≠ [] → forallb dot_free keys = true →
  PyStr.split_dot (join_dot keys) = keys.
Proof.
  induction keys as [|key keys IH]; [done|]. intros _.
  simpl forallb. intros [Hk Hks]%andb_prop.
  destruct keys as [|key' keys]; [by apply split_dot_dot_free|].
  change (join_dot (key :: key' :: keys))
    with (key ++ String "." (join_dot (key' :: keys))).
  rewrite split_dot_app_dot; [|done]. by rewrite IH.
Qed.

(** Writing through a path and reading it back gives what was written,
    as it was written. *)
Lemma get_keys_set_keys v keys x v' dflt :
  ConfigManager.set_keys v keys x = Some v' →
  ConfigManager.get_keys v' keys dflt = x.
Proof.
  revert v v'. induction keys as [|key keys IH]; intros v v'.
  - by destruct v.
  - destruct v as [| | | | |d]; try done. simpl.
    destruct keys as [|key' keys].
    + intros [= <-]. simpl. by rewrite lookup_insert_eq.
    + destruct (ConfigManager.set_keys _ (key' :: keys) x) as [child|] eqn:Hc;
        [|done].
      simpl. intros [= <-]. rewrite lookup_insert_eq. by eapply IH.
Qed.

(** Interpolation commutes with walking down nested mappings. *)
Lemma path_stored_process env v keys x :
  path_stored v keys x →
  path_stored (ConfigManager.process_entry env v) keys
              (ConfigManager.process_entry env x).
Proof.
  induction 1 as [|d key keys v x Hk _ IH]; [constructor|].
  simpl. eapply stored_deeper; [|done]. by rewrite lookup_fmap, Hk.
Qed.

End config_lookup.

(** C6.  For every configuration tree, dotted path and default value,
    [get] returns the default whenever some key along the path is absent or
    an intermediate value reached during the walk is not a mapping, and
    returns the stored value otherwise. *)
Theorem get_default_or_stored (config : value) (key_path : string) (dflt : value) :
  let keys := PyStr.split_dot key_path in
  (path_broken config keys → ConfigManager.get config key_path dflt = dflt) ∧
  (¬ path_broken config keys →
   ∃ x, path_stored config keys x ∧ ConfigManager.get config key_path dflt = x).
Proof.
  unfold ConfigManager.get. split.
  - apply get_keys_broken.
  - intros Hnb.
    destruct (path_stored_or_broken config (PyStr.split_dot key_path))
      as [Hb|[x Hx]]; [done|].
    exists x. split; [done|]. by apply get_keys_stored.
Qed.

Lemma get_default_or_stored_witness :
  ConfigManager.get sample_document "a.b.c" (VStr "D") = VStr "D" ∧
  ConfigManager.get sample_document "n.x" (VStr "D") = VStr "D" ∧
  ConfigManager.get sample_document "a.z" (VStr "D") = VStr "D" ∧
  ∃ x, path_stored sample_document ["a"; "b"] x ∧
       ConfigManager.get sample_document "a.b" (VStr "D") = x.
Proof.
  split; [|split; [|split]].
  - apply (proj1 (get_default_or_stored sample_document "a.b.c" (VStr "D"))).
    apply broken_deeper with (VDict {[ "b" := VStr "${FOO}"; "l" := VList [VStr "${FOO}"] ]});
      [reflexivity|].
    apply broken_deeper with (VStr "${FOO}"); [reflexivity|].
    by apply broken_not_mapping.
  - apply (proj1 (get_default_or_stored sample_document "n.x" (VStr "D"))).
    apply broken_deeper with (VNum 3); [reflexivity|].
    by apply broken_not_mapping.
  - apply (proj1 (get_default_or_stored sample_document "a.z" (VStr "D"))).
    apply broken_deeper with (VDict {[ "b" := VStr "${FOO}"; "l" := VList [VStr "${FOO}"] ]});
      [reflexivity|].
    apply broken_absent. reflexivity.
  - apply (proj2 (get_default_or_stored sample_document "a.b" (VStr "D"))).
    apply path_stored_not_broken with (VStr "${FOO}").
    apply stored_deeper with (VDict {[ "b" := VStr "${FOO}"; "l" := VList [VStr "${FOO}"] ]});
      [reflexivity|].
    apply stored_deeper with (VStr "${FOO}"); [reflexivity|]. constructor.
Defined.

(** C7.  At configuration load time, and only then, every string value
    reachable through nested mappings that has the exact form [${NAME}] is
    replaced by the value of the environment variable [NAME], or by the empty
    string if it is unset; strings of another form are kept, and sequences,
    with the strings in them, are kept as they are.  [load_config] installs
    the interpolated document (or the defaults), whereas a later [set]
    stores its value untouched. *)
Theorem env_interpolation_at_load
    (env : gmap string string) (level_ok : string → bool)
    (d : gmap string value) :
  let loaded := VDict (ConfigManager._process_env_vars env d) in
  (∀ keys name,
     path_stored (VDict d) keys (VStr ("${" ++ name ++ "}")) →
     path_stored loaded keys (VStr (default "" (env !! name)))) ∧
  (∀ keys s,
     path_stored (VDict d) keys (VStr s) →
     (∀ name, s ≠ "${" ++ name ++ "}") →
     path_stored loaded keys (VStr s)) ∧
  (∀ keys items,
     path_stored (VDict d) keys (VList items) →
     path_stored loaded keys (VList items)) ∧
  (∀ lvl,
     ConfigManager.get loaded "server.log_level" (VStr "info") = VStr lvl →
     level_ok lvl = true →
     ConfigManager.load_config env level_ok (Some (VDict d)) = loaded) ∧
  (∀ config key_path x config' dflt,
     ConfigManager.set config key_path x = Some config' →
     ConfigManager.get config' key_path dflt = x).
Proof.
  intros loaded. split; [|split; [|split; [|split]]].
  - intros keys name H.
    apply (path_stored_process env) in H. simpl in H.
    assert (Hr : ConfigManager.is_env_ref ("${" ++ name ++ "}") = true)
      by (apply is_env_ref_spec; eauto).
    rewrite Hr in H. by rewrite env_ref_name in H.
  - intros keys s H Hform.
    apply (path_stored_process env) in H. simpl in H.
    destruct (ConfigManager.is_env_ref s) eqn:Hr; [|done].
    apply is_env_ref_spec in Hr as [name ->]. by destruct (Hform name).
  - intros keys items H. by apply (path_stored_process env) in H.
  - intros lvl Hget Hok. unfold ConfigManager.load_config.
    fold loaded. by rewrite Hget, Hok.
  - intros config key_path x config' dflt. apply get_keys_set_keys.
Qed.

Lemma env_interpolation_at_load_witness :
  let env : gmap string string := {[ "FOO" := "bar" ]} in
  let loaded :=
    ConfigManager.load_config env (λ _, true) (Some sample_document) in
  ConfigManager.get loaded "a.b" VNull = VStr "bar" ∧
  ConfigManager.get (ConfigManager.load_config ∅ (λ _, true) (Some sample_document))
                    "a.b" VNull = VStr "" ∧
  ConfigManager.get loaded "a.l" VNull = VList [VStr "${FOO}"].
Proof.
  set (inner := ({[ "b" := VStr "${FOO}"; "l" := VList [VStr "${FOO}"] ]}
                 : gmap string value)).
  set (doc := ({[ "a" := VDict inner; "n" := VNum 3 ]} : gmap string value)).
  assert (Hb : path_stored (VDict doc) ["a"; "b"] (VStr ("${" ++ "FOO" ++ "}"))).
  { apply stored_deeper with (VDict inner); [reflexivity|].
    apply stored_deeper with (VStr "${FOO}"); [reflexivity|]. constructor. }
  assert (Hl : path_stored (VDict doc) ["a"; "l"] (VList [VStr "${FOO}"])).
  { apply stored_deeper with (VDict inner); [reflexivity|].
    apply stored_deeper with (VList [VStr "${FOO}"]); [reflexivity|]. constructor. }
  intros env loaded. split; [|split].
  - destruct (env_interpolation_at_load env (λ _, true) doc) as (H1 & _ & _ & H4 & _).
    unfold loaded, sample_document. fold inner. fold doc.
    rewrite (H4 "info"); [|reflexivity|reflexivity].
    apply (get_keys_stored _ ["a"; "b"]). apply (H1 _ "FOO" Hb).
  - destruct (env_interpolation_at_load ∅ (λ _, true) doc) as (H1 & _ & _ & H4 & _).
    unfold sample_document. fold inner. fold doc.
    rewrite (H4 "info"); [|reflexivity|reflexivity].
    apply (get_keys_stored _ ["a"; "b"]). apply (H1 _ "FOO" Hb).
  - destruct (env_interpolation_at_load env (λ _, true) doc) as (_ & _ & H3 & H4 & _).
    unfold loaded, sample_document. fold inner. fold doc.
    rewrite (H4 "info"); [|reflexivity|reflexivity].
    apply (get_keys_stored _ ["a"; "l"]). apply (H3 _ _ Hl).
Defined.

(** ** Running the loader *)

(** Running a computation of [M] symbolically: only the monad, the state
    updates and the projections of a built state are unfolded. *)
Ltac run :=
  unfold PluginLoader._load_plugin_file, PluginLoader.reload_plugin,
    PluginLoader.unload_plugin, exec_module, call, logger, emit,
    set_loaded_plugins, set_plugin_paths, set_loaded_modules, set_sys_modules,
    set_plugin_dirs, set_file_mtimes, try_except, bind, ret, raise, lift,
    get_state, modify, add_trace, add_sys_module, add_plugin, drop_plugin,
    imported in *;
  cbn [loaded_plugins plugin_paths loaded_modules sys_modules plugin_dirs
       file_mtimes trace fst snd negb] in *.

Section load_summary.

Context (w : world) (plugin_id file_path plugin_type : string).

Let module_name := plugin_type ++ "." ++ plugin_id.

(** The load of a module that is already in [loaded_modules]. *)
Lemma load_already_loaded st :
  module_name ∈ loaded_modules st →
  PluginLoader._load_plugin_file w plugin_id file_path plugin_type st
  = (Ok tt, add_trace [EvLog DEBUG (MsgModuleAlreadyLoaded module_name)] st).
Proof.
  intros Hin. run. fold module_name. by rewrite bool_decide_eq_true_2.
Qed.

(** The load of a path no loader takes. *)
Lemma load_no_spec st :
  module_name ∉ loaded_modules st →
  spec_from_file_location w file_path = false →
  PluginLoader._load_plugin_file w plugin_id file_path plugin_type st
  = (Ok tt, add_trace [EvLog DEBUG (MsgImporting module_name file_path);
                       EvLog ERROR (MsgCannotLoadFile file_path)] st).
Proof.
  intros Hin Hspec. run. fold module_name.
  rewrite bool_decide_eq_false_2 by done. rewrite Hspec. simpl.
  by rewrite <- app_assoc.
Qed.

(** The load of a file whose execution raises. *)
Lemma load_exec_raises st :
  module_name ∉ loaded_modules st →
  spec_from_file_location w file_path = true →
  imported w file_path = None →
  PluginLoader._load_plugin_file w plugin_id file_path plugin_type st
  = (Ok tt, add_trace [EvLog DEBUG (MsgImporting module_name file_path);
                       EvLog ERROR (MsgLoadFailed plugin_id)]
                      (add_sys_module module_name st)).
Proof.
  intros Hin Hspec Himp. run. fold module_name.
  rewrite bool_decide_eq_false_2 by done. rewrite Hspec. simpl.
  repeat case_match; simplify_eq; simpl; by rewrite <- app_assoc.
Qed.

(** The load of a module without [setup]. *)
Lemma load_no_setup st m :
  module_name ∉ loaded_modules st →
  spec_from_file_location w file_path = true →
  imported w file_path = Some m →
  mod_setup m = None →
  PluginLoader._load_plugin_file w plugin_id file_path plugin_type st
  = (Ok tt, add_trace [EvLog DEBUG (MsgImporting module_name file_path);
                       EvLog WARNING (MsgNoSetup plugin_id)]
                      (add_sys_module module_name st)).
Proof.
  intros Hin Hspec Himp Hsetup. run. fold module_name.
  rewrite bool_decide_eq_false_2 by done. rewrite Hspec. simpl.
  repeat case_match; simplify_eq; simpl; rewrite ?Hsetup; simpl;
    by rewrite <- app_assoc.
Qed.

(** The load of a module whose [setup] raises. *)
Lemma load_setup_raises st m :
  module_name ∉ loaded_modules st →
  spec_from_file_location w file_path = true →
  imported w file_path = Some m →
  mod_setup m = Some Raises →
  PluginLoader._load_plugin_file w plugin_id file_path plugin_type st
  = (Ok tt, add_trace [EvLog DEBUG (MsgImporting module_name file_path);
                       EvLog DEBUG (MsgCallingSetup plugin_id);
                       EvSetup plugin_id m;
                       EvLog ERROR (MsgLoadFailed plugin_id)]
                      (add_sys_module module_name st)).
Proof.
  intros Hin Hspec Himp Hsetup. run. fold module_name.
  rewrite bool_decide_eq_false_2 by done. rewrite Hspec. simpl.
  repeat case_match; simplify_eq; simpl; rewrite ?Hsetup; simpl;
    by rewrite <- !app_assoc.
Qed.

(** The load of a module whose [setup] returns. *)
Lemma load_setup_returns st m :
  module_name ∉ loaded_modules st →
  spec_from_file_location w file_path = true →
  imported w file_path = Some m →
  mod_setup m = Some Returns →
  PluginLoader._load_plugin_file w plugin_id file_path plugin_type st
  = (Ok tt, add_trace [EvLog DEBUG (MsgImporting module_name file_path);
                       EvLog DEBUG (MsgCallingSetup plugin_id);
                       EvSetup plugin_id m;
                       EvLog INFO (MsgLoaded plugin_id plugin_type)]
                      (add_plugin plugin_id file_path module_name m
                         (add_sys_module module_name st))).
Proof.
  intros Hin Hspec Himp Hsetup. run. fold module_name.
  rewrite bool_decide_eq_false_2 by done. rewrite Hspec. simpl.
  repeat case_match; simplify_eq; simpl; rewrite ?Hsetup; simpl;
    by rewrite <- !app_assoc.
Qed.

End load_summary.

(** ** Loading *)

(** C2.  After a successful first load (the file imports and its [setup]
    returns), loading again with the same id and kind, from whatever path, is
    a no-op: loaded plugins, plugin paths and the loaded module set are
    unchanged, and the only new event is a debug line, so [setup] is not
    invoked again. *)
Theorem load_twice_is_noop
    (w w2 : world) (plugin_id file_path file_path2 plugin_type : string)
    (st : state) (m : pymodule) :
  spec_from_file_location w file_path = true →
  imported w file_path = Some m →
  mod_setup m = Some Returns →
  let st1 := (PluginLoader._load_plugin_file w plugin_id file_path plugin_type st).2 in
  let module_name := plugin_type ++ "." ++ plugin_id in
  ∃ st2,
    PluginLoader._load_plugin_file w2 plugin_id file_path2 plugin_type st1
      = (Ok tt, st2) ∧
    registry st2 = registry st1 ∧
    sys_modules st2 = sys_modules st1 ∧
    trace st2 = (trace st1 ++ [EvLog DEBUG (MsgModuleAlreadyLoaded module_name)])%list.
Proof.
  intros Hspec Himp Hsetup st1 module_name.
  assert (Hin : module_name ∈ loaded_modules st1).
  { unfold st1. destruct (decide (module_name ∈ loaded_modules st)) as [Hl|Hl].
    - by rewrite load_already_loaded.
    - rewrite (load_setup_returns _ _ _ _ _ m) by done. simpl. set_solver. }
  eexists. split; [by apply load_already_loaded|]. done.
Qed.

Lemma load_twice_is_noop_witness :
  let st1 :=
    (PluginLoader._load_plugin_file probe_world "probe" "plugins/tools/probe.py"
       "tools" init_state).2 in
  loaded_plugins st1 !! "probe" = Some probe_module ∧
  ∃ st2,
    PluginLoader._load_plugin_file probe_world "probe" "elsewhere/probe.py"
      "tools" st1 = (Ok tt, st2) ∧
    registry st2 = registry st1 ∧
    sys_modules st2 = sys_modules st1 ∧
    trace st2 = (trace st1 ++ [EvLog DEBUG (MsgModuleAlreadyLoaded "tools.probe")])%list.
Proof.
  split; [vm_compute; reflexivity|].
  apply (load_twice_is_noop probe_world probe_world "probe"
           "plugins/tools/probe.py" "elsewhere/probe.py" "tools" init_state
           probe_module); reflexivity.
Defined.

(** C5.  A load never raises.  When the module's [setup] raises, loaded
    plugins, plugin paths and the loaded module set are what they were, and
    the exception is logged right after the call of [setup].  The registry
    differs after a load only when [setup] was called and returned, and then
    it holds the complete entry. *)
Theorem failed_setup_leaves_registry
    (w : world) (plugin_id file_path plugin_type : string) (st : state) :
  let module_name := plugin_type ++ "." ++ plugin_id in
  let out := PluginLoader._load_plugin_file w plugin_id file_path plugin_type st in
  out.1 = Ok tt ∧
  (∀ m, imported w file_path = Some m → mod_setup m = Some Raises →
        registry out.2 = registry st ∧
        (module_name ∉ loaded_modules st →
         spec_from_file_location w file_path = true →
         trace out.2 = (trace st ++
           [EvLog DEBUG (MsgImporting module_name file_path);
            EvLog DEBUG (MsgCallingSetup plugin_id);
            EvSetup plugin_id m;
            EvLog ERROR (MsgLoadFailed plugin_id)])%list)) ∧
  (registry out.2 ≠ registry st →
   ∃ m, imported w file_path = Some m ∧ mod_setup m = Some Returns ∧
        registry out.2 = (<[plugin_id := m]> (loaded_plugins st),
                          <[plugin_id := file_path]> (plugin_paths st),
                          {[module_name]} ∪ loaded_modules st) ∧
        trace out.2 = (trace st ++
          [EvLog DEBUG (MsgImporting module_name file_path);
           EvLog DEBUG (MsgCallingSetup plugin_id);
           EvSetup plugin_id m;
           EvLog INFO (MsgLoaded plugin_id plugin_type)])%list).
Proof.
  intros module_name out. unfold out.
  destruct (decide (module_name ∈ loaded_modules st)) as [Hl|Hl].
  { rewrite load_already_loaded by done. by repeat split. }
  destruct (spec_from_file_location w file_path) eqn:Hspec.
  2: { rewrite load_no_spec by done. by repeat split. }
  destruct (imported w file_path) as [m|] eqn:Himp.
  2: { rewrite load_exec_raises by done. by repeat split. }
  destruct (mod_setup m) as [[]|] eqn:Hsetup.
  - rewrite (load_setup_returns _ _ _ _ _ m) by done.
    split; [done|]. split; [intros ? [= <-]; congruence|].
    intros _. by exists m.
  - rewrite (load_setup_raises _ _ _ _ _ m) by done.
    split; [done|]. split; [|done]. by intros ? [= <-] _.
  - rewrite (load_no_setup _ _ _ _ _ m) by done.
    split; [done|]. split; [|done]. intros ? [= <-]. congruence.
Qed.

Lemma failed_setup_leaves_registry_witness :
  let out :=
    PluginLoader._load_plugin_file faulty_world "faulty"
      "plugins/tools/faulty.py" "tools" init_state in
  registry out.2 = registry init_state ∧
  trace out.2 =
    [EvLog DEBUG (MsgImporting "tools.faulty" "plugins/tools/faulty.py");
     EvLog DEBUG (MsgCallingSetup "faulty");
     EvSetup "faulty" faulty_module;
     EvLog ERROR (MsgLoadFailed "faulty")].
Proof.
  destruct (failed_setup_leaves_registry faulty_world "faulty"
              "plugins/tools/faulty.py" "tools" init_state) as (_ & H & _).
  destruct (H faulty_module) as [Hreg Htrace]; [reflexivity|reflexivity|].
  split; [exact Hreg|]. apply Htrace; [|reflexivity].
  vm_compute. set_solver.
Defined.

(** ** Reloading and unloading *)

(** C9.  For every plugin id without a current record (absent from the
    loaded plugins or from the plugin paths), [reload_plugin] returns
    [False] without raising and leaves loaded plugins, plugin paths and the
    loaded module set unchanged; it only logs a warning. *)
Theorem reload_not_loaded (w : world) (plugin_id : string) (st : state) :
  loaded_plugins st !! plugin_id = None ∨ plugin_paths st !! plugin_id = None →
  ∃ st',
    PluginLoader.reload_plugin w plugin_id st = (Ok false, st') ∧
    registry st' = registry st ∧
    sys_modules st' = sys_modules st ∧
    trace st' = (trace st ++ [EvLog WARNING (MsgReloadNotLoaded plugin_id)])%list.
Proof.
  intros H. run.
  destruct (loaded_plugins st !! plugin_id), (plugin_paths st !! plugin_id);
    try (eexists; split; [reflexivity|done]).
  by destruct H.
Qed.

Lemma reload_not_loaded_witness :
  ∃ st',
    PluginLoader.reload_plugin probe_world "ghost" probe_loaded = (Ok false, st') ∧
    registry st' = registry probe_loaded ∧
    sys_modules st' = sys_modules probe_loaded ∧
    trace st' = (trace probe_loaded ++ [EvLog WARNING (MsgReloadNotLoaded "ghost")])%list.
Proof.
  apply (reload_not_loaded probe_world "ghost" probe_loaded).
  left. vm_compute. reflexivity.
Defined.

(** C3, as stated, fails: the plugin whose [teardown] raises is still
    registered after [unload_plugin]. *)
Lemma teardown_error_blocks_removal :
  ¬ teardown_error_does_not_block_removal stubborn_loaded "stubborn".
Proof.
  intros H. destruct (H stubborn_module) as [Hgone _]; [reflexivity..|].
  vm_compute in Hgone. discriminate.
Qed.

(** C3, amended.  For every loaded plugin whose [teardown] raises,
    [unload_plugin] calls it, logs the failure and returns [False]; the
    plugin's entry, path and module identity stay as they were. *)
Theorem unload_teardown_raises (plugin_id : string) (st : state) (m : pymodule) :
  loaded_plugins st !! plugin_id = Some m →
  mod_teardown m = Some Raises →
  ∃ st',
    PluginLoader.unload_plugin plugin_id st = (Ok false, st') ∧
    registry st' = registry st ∧
    sys_modules st' = sys_modules st ∧
    trace st' = (trace st ++ [EvTeardown m; EvLog ERROR (MsgUnloadFailed plugin_id)])%list.
Proof.
  intros Hm Htd. run. rewrite Hm, Htd. simpl.
  eexists. split; [reflexivity|]. simpl. by rewrite <- app_assoc.
Qed.

Lemma unload_teardown_raises_witness :
  ∃ st',
    PluginLoader.unload_plugin "stubborn" stubborn_loaded = (Ok false, st') ∧
    registry st' = registry stubborn_loaded ∧
    sys_modules st' = sys_modules stubborn_loaded ∧
    trace st' = (trace stubborn_loaded ++
                 [EvTeardown stubborn_module; EvLog ERROR (MsgUnloadFailed "stubborn")])%list.
Proof.
  apply (unload_teardown_raises "stubborn" stubborn_loaded stubborn_module);
    reflexivity.
Defined.

(** A load never lets an exception out. *)
Lemma load_returns w plugin_id file_path plugin_type st :
  (PluginLoader._load_plugin_file w plugin_id file_path plugin_type st).1 = Ok tt.
Proof.
  destruct (decide (plugin_type ++ "." ++ plugin_id ∈ loaded_modules st)).
  { by rewrite load_already_loaded. }
  destruct (spec_from_file_location w file_path) eqn:Hspec.
  2: { by rewrite load_no_spec. }
  destruct (imported w file_path) as [m|] eqn:Himp.
  2: { by rewrite load_exec_raises. }
  destruct (mod_setup m) as [[]|] eqn:Hsetup.
  - by rewrite (load_setup_returns _ _ _ _ _ m).
  - by rewrite (load_setup_raises _ _ _ _ _ m).
  - by rewrite (load_no_setup _ _ _ _ _ m).
Qed.

(** The state from which [reload_plugin] runs its inner load. *)
Lemma reload_unfold w plugin_id st m file_path plugin_type :
  loaded_plugins st !! plugin_id = Some m →
  plugin_paths st !! plugin_id = Some file_path →
  PluginLoader.find_type_by_prefix (cfg_loader w) file_path plugin_types
    = Ok (Some plugin_type) →
  PluginLoader.reload_plugin w plugin_id st =
    let inner :=
      PluginLoader._load_plugin_file w plugin_id file_path plugin_type
        (drop_plugin plugin_id (plugin_type ++ "." ++ plugin_id) st) in
    (Ok true, add_trace [EvLog INFO (MsgReloaded plugin_id)] inner.2).
Proof.
  intros Hm Hp Ht.
  pose proof (load_returns w plugin_id file_path plugin_type
                (drop_plugin plugin_id (plugin_type ++ "." ++ plugin_id) st))
    as Hok.
  unfold PluginLoader.reload_plugin, bind at 1, get_state. rewrite Hm, Hp.
  unfold try_except, bind at 1, lift. rewrite Ht.
  unfold bind, set_sys_modules, set_loaded_plugins, set_loaded_modules, modify.
  simpl. unfold drop_plugin in *.
  destruct (PluginLoader._load_plugin_file _ _ _ _ _) as [r st1].
  simpl in *. subst r. reflexivity.
Qed.

Lemma drop_plugin_not_loaded plugin_id module_name st :
  module_name ∉ loaded_modules (drop_plugin plugin_id module_name st).
Proof.
  unfold drop_plugin. cbn [loaded_modules].
  apply not_elem_of_difference. right. by apply elem_of_singleton.
Qed.

(** C10.  When [reload_plugin] is called on a loaded plugin whose type is
    found, and the inner load fails, the call still returns [True], and the
    plugin id is absent from the loaded plugins afterwards (its path stays
    behind in the plugin paths). *)
Theorem reload_true_when_load_fails
    (w : world) (plugin_id file_path plugin_type : string) (st : state)
    (m : pymodule) :
  loaded_plugins st !! plugin_id = Some m →
  plugin_paths st !! plugin_id = Some file_path →
  PluginLoader.find_type_by_prefix (cfg_loader w) file_path plugin_types
    = Ok (Some plugin_type) →
  load_fails w file_path →
  ∃ st',
    PluginLoader.reload_plugin w plugin_id st = (Ok true, st') ∧
    loaded_plugins st' !! plugin_id = None ∧
    plugin_paths st' !! plugin_id = Some file_path ∧
    last (trace st') = Some (EvLog INFO (MsgReloaded plugin_id)).
Proof.
  intros Hm Hp Ht Hfail.
  rewrite (reload_unfold w plugin_id st m file_path plugin_type) by done.
  set (module_name := plugin_type ++ "." ++ plugin_id).
  pose proof (drop_plugin_not_loaded plugin_id module_name st) as Hnot.
  eexists. split; [reflexivity|]. simpl.
  assert (Hlast : ∀ tr : list event,
            last (tr ++ [EvLog INFO (MsgReloaded plugin_id)])
            = Some (EvLog INFO (MsgReloaded plugin_id)))
    by (intros; apply last_snoc).
  destruct (spec_from_file_location w file_path) eqn:Hspec.
  2: { rewrite load_no_spec by done. simpl.
       by rewrite lookup_delete_eq, Hlast. }
  destruct (imported w file_path) as [m'|] eqn:Himp.
  2: { rewrite load_exec_raises by done. simpl.
       by rewrite lookup_delete_eq, Hlast. }
  destruct (mod_setup m') as [[]|] eqn:Hsetup.
  - destruct Hfail as [?|[?|(m'' & ? & ?)]]; congruence.
  - rewrite (load_setup_raises _ _ _ _ _ m') by done. simpl.
    by rewrite lookup_delete_eq, Hlast.
  - rewrite (load_no_setup _ _ _ _ _ m') by done. simpl.
    by rewrite lookup_delete_eq, Hlast.
Qed.

Lemma reload_true_when_load_fails_witness :
  ∃ st',
    PluginLoader.reload_plugin faulty_world "faulty" faulty_loaded = (Ok true, st') ∧
    loaded_plugins st' !! "faulty" = None ∧
    plugin_paths st' !! "faulty" = Some "plugins/tools/faulty.py" ∧
    last (trace st') = Some (EvLog INFO (MsgReloaded "faulty")).
Proof.
  apply (reload_true_when_load_fails faulty_world "faulty"
           "plugins/tools/faulty.py" "tools" faulty_loaded probe_module);
    try reflexivity.
  right. right. exists faulty_module. split; [reflexivity|discriminate].
Defined.

(** ** Invariants of the load paths *)

Section steady.

Lemma extends_refl st : extends st st.
Proof. split; [done|]. exists []. by rewrite app_nil_r. Qed.

Lemma extends_trans st1 st2 st3 :
  extends st1 st2 → extends st2 st3 → extends st1 st3.
Proof.
  intros [Hd1 (e1 & Ht1 & Hf1)] [Hd2 (e2 & Ht2 & Hf2)]. split; [congruence|].
  exists (e1 ++ e2)%list. split; [|by apply Forall_app].
  by rewrite Ht2, Ht1, app_assoc.
Qed.

Lemma extends_same st st' :
  plugin_dirs st' = plugin_dirs st → trace st' = trace st → extends st st'.
Proof. intros Hd Ht. split; [done|]. exists []. by rewrite app_nil_r. Qed.

Lemma steady_ret {A} (a : A) : steady (ret a).
Proof. intros st. apply extends_refl. Qed.

Lemma steady_raise {A} e : steady (raise (A := A) e).
Proof. intros st. apply extends_refl. Qed.

Lemma steady_lift {A} (r : result A) : steady (lift r).
Proof. intros st. apply extends_refl. Qed.

Lemma steady_get_state : steady get_state.
Proof. intros st. apply extends_refl. Qed.

Lemma steady_bind {A B} (m : M A) (k : A → M B) :
  steady m → (∀ a, steady (k a)) → steady (bind m k).
Proof.
  intros Hm Hk st. unfold bind. specialize (Hm st).
  destruct (m st) as [[a|e] st1]; [|done].
  eapply extends_trans; [exact Hm|]. apply Hk.
Qed.

Lemma steady_try_except {A} (body : M A) (handler : exn → M A) :
  steady body → (∀ e, steady (handler e)) → steady (try_except body handler).
Proof.
  intros Hm Hk st. unfold try_except. specialize (Hm st).
  destruct (body st) as [[a|e] st1]; [done|].
  eapply extends_trans; [exact Hm|]. apply Hk.
Qed.

Lemma steady_for_each {A} (xs : list A) (body : A → M unit) :
  (∀ x, steady (body x)) → steady (for_each xs body).
Proof.
  intros Hb. induction xs as [|x xs IH]; simpl.
  - apply steady_ret.
  - apply steady_bind; [apply Hb | by intros _].
Qed.

Lemma steady_emit e : no_teardown e → steady (emit e).
Proof.
  intros He st. split; [done|]. exists [e]. split; [done|].
  by apply Forall_singleton.
Qed.

Lemma steady_logger lvl msg : steady (logger lvl msg).
Proof. apply steady_emit. by intros m. Qed.

Lemma steady_set_loaded_plugins f : steady (set_loaded_plugins f).
Proof. intros st. by apply extends_same. Qed.

Lemma steady_set_plugin_paths f : steady (set_plugin_paths f).
Proof. intros st. by apply extends_same. Qed.

Lemma steady_set_loaded_modules f : steady (set_loaded_modules f).
Proof. intros st. by apply extends_same. Qed.

Lemma steady_set_sys_modules f : steady (set_sys_modules f).
Proof. intros st. by apply extends_same. Qed.

Lemma steady_set_file_mtimes f : steady (set_file_mtimes f).
Proof. intros st. by apply extends_same. Qed.

Lemma steady_call o : steady (call o).
Proof. destruct o; [apply steady_ret | apply steady_raise]. Qed.

Lemma steady_as_path v : steady (as_path v).
Proof. destruct v; first [apply steady_ret | apply steady_raise]. Qed.

Lemma steady_os_listdir w p : steady (os_listdir w p).
Proof.
  unfold os_listdir.
  repeat case_match; first [apply steady_ret | apply steady_raise].
Qed.

Lemma steady_os_path_getmtime w p : steady (os_path_getmtime w p).
Proof.
  unfold os_path_getmtime.
  repeat case_match; first [apply steady_ret | apply steady_raise].
Qed.

Lemma steady_exec_module w p : steady (exec_module w p).
Proof.
  unfold exec_module.
  repeat case_match; first [apply steady_ret | apply steady_raise].
Qed.

End steady.

Create HintDb steady.

#[local] Hint Resolve steady_ret steady_raise steady_lift steady_get_state
  steady_logger steady_set_loaded_plugins steady_set_plugin_paths
  steady_set_loaded_modules steady_set_sys_modules steady_set_file_mtimes
  steady_call steady_as_path steady_os_listdir steady_os_path_getmtime
  steady_exec_module : steady.

Ltac steady_step :=
  first
    [ apply steady_bind; [|intros ?]
    | apply steady_try_except; [|intros ?]
    | apply steady_for_each; intros ?
    | apply steady_emit; intros ?; discriminate
    | solve [auto with steady]
    | case_match ].

Lemma steady_load w plugin_id file_path plugin_type :
  steady (PluginLoader._load_plugin_file w plugin_id file_path plugin_type).
Proof. unfold PluginLoader._load_plugin_file. repeat steady_step. Qed.

Lemma steady_reload w plugin_id :
  steady (PluginLoader.reload_plugin w plugin_id).
Proof.
  unfold PluginLoader.reload_plugin.
  repeat first [apply steady_load | steady_step].
Qed.

Lemma steady_watch_file w directory filename :
  steady (MCPServer.watch_file w directory filename).
Proof.
  unfold MCPServer.watch_file.
  repeat first [apply steady_load | apply steady_reload | steady_step].
Qed.

Lemma steady_watch_cycle w : steady (MCPServer.watch_cycle w).
Proof.
  unfold MCPServer.watch_cycle.
  repeat first [apply steady_watch_file | steady_step].
Qed.

(** ** Reload and the outgoing module *)

(** C4, as stated, fails: reloading [probe], whose module has a [teardown],
    calls no [teardown] at all. *)
Lemma reload_skips_teardown :
  ¬ reload_runs_teardown_first probe_world probe_loaded "probe".
Proof.
  intros H.
  destruct (H probe_module) as (new & pre & mid & post & Htrace);
    [reflexivity | by eexists |].
  assert (Hin : In (EvTeardown probe_module)
                   (trace (PluginLoader.reload_plugin probe_world "probe"
                             probe_loaded).2)).
  { rewrite Htrace. apply in_or_app. right. apply in_or_app. right.
    apply in_or_app. left. by left. }
  vm_compute in Hin.
  repeat (destruct Hin as [Hin|Hin]; [discriminate|]). exact Hin.
Qed.

(** C4, amended.  [reload_plugin] never calls a [teardown]: whatever the
    state, the events it adds hold no such call.  For a loaded plugin whose
    type is found, whose file imports and whose new [setup] returns, it
    returns [True] after calling that [setup], and the new module stands
    under the same id, with the same path. *)
Theorem reload_replaces_without_teardown
    (w : world) (plugin_id : string) (st : state) :
  (∃ evs, trace (PluginLoader.reload_plugin w plugin_id st).2
          = (trace st ++ evs)%list ∧
          Forall no_teardown evs) ∧
  (∀ old file_path plugin_type new,
     loaded_plugins st !! plugin_id = Some old →
     plugin_paths st !! plugin_id = Some file_path →
     PluginLoader.find_type_by_prefix (cfg_loader w) file_path plugin_types
       = Ok (Some plugin_type) →
     spec_from_file_location w file_path = true →
     imported w file_path = Some new →
     mod_setup new = Some Returns →
     ∃ st',
       PluginLoader.reload_plugin w plugin_id st = (Ok true, st') ∧
       loaded_plugins st' = <[plugin_id := new]> (loaded_plugins st) ∧
       plugin_paths st' = plugin_paths st ∧
       trace st' = (trace st ++
         [EvLog DEBUG (MsgImporting (plugin_type ++ "." ++ plugin_id) file_path);
          EvLog DEBUG (MsgCallingSetup plugin_id);
          EvSetup plugin_id new;
          EvLog INFO (MsgLoaded plugin_id plugin_type);
          EvLog INFO (MsgReloaded plugin_id)])%list).
Proof.
  split; [apply (steady_reload w plugin_id st)|].
  intros old file_path plugin_type new Hm Hp Ht Hspec Himp Hsetup.
  rewrite (reload_unfold w plugin_id st old file_path plugin_type) by done.
  rewrite (load_setup_returns _ _ _ _ _ new)
    by (try done; apply drop_plugin_not_loaded).
  eexists. split; [reflexivity|]. simpl. split; [|split].
  - apply insert_delete_eq.
  - by apply insert_id.
  - by rewrite <- app_assoc.
Qed.

Lemma reload_replaces_without_teardown_witness :
  ∃ st',
    PluginLoader.reload_plugin probe_world "probe" probe_loaded = (Ok true, st') ∧
    loaded_plugins st' = <[ "probe" := probe_module ]> (loaded_plugins probe_loaded) ∧
    plugin_paths st' = plugin_paths probe_loaded ∧
    trace st' = (trace probe_loaded ++
      [EvLog DEBUG (MsgImporting "tools.probe" "plugins/tools/probe.py");
       EvLog DEBUG (MsgCallingSetup "probe");
       EvSetup "probe" probe_module;
       EvLog INFO (MsgLoaded "probe" "tools");
       EvLog INFO (MsgReloaded "probe")])%list.
Proof.
  apply (proj2 (reload_replaces_without_teardown probe_world "probe" probe_loaded)
           probe_module "plugins/tools/probe.py" "tools" probe_module);
    reflexivity.
Defined.

(** ** The watcher's directory list *)

Example moved_config_tools :
  ConfigManager.get_plugin_directory moved_config "tools" = VStr "extra/tools".
Proof. vm_compute. reflexivity. Qed.

(** The plugin in the newly configured directory is not picked up, while
    the one in the old directory was. *)
Example moved_directory_not_scanned :
  let st := (MCPServer.watch_cycle moved_world watching).2 in
  loaded_plugins st !! "fresh" = None ∧
  loaded_plugins st !! "probe" = Some probe_module.
Proof. vm_compute. done. Qed.

Lemma steady_watch_cycles ws : steady (watch_cycles ws).
Proof.
  induction ws as [|w ws IH]; simpl.
  - apply steady_ret.
  - apply steady_bind; [apply steady_watch_cycle | by intros _].
Qed.

(** A guarded body followed by an event: the result is [Ok] and the event
    is the last one, whatever the body does. *)
Lemma guarded_then_emit (body : M unit) lvl msg e st :
  let out := (try_except body (λ _, logger lvl msg) ;;; emit e) st in
  out.1 = Ok tt ∧ last (trace out.2) = Some e.
Proof.
  unfold bind, try_except, logger, emit, modify.
  destruct (body st) as [[[]|x] st1]; cbn [fst snd trace];
    (split; [done | apply last_snoc]).
Qed.

(** A turn of the loop always reaches its sleep: nothing it does escapes
    the two [try] blocks. *)
Lemma watch_cycle_returns w st :
  (MCPServer.watch_cycle w st).1 = Ok tt ∧
  last (trace (MCPServer.watch_cycle w st).2) = Some (EvSleep 5).
Proof. apply guarded_then_emit. Qed.

(** ** The disabled list and the watcher *)

(** C1.  The code at the failing input: [secret] is in the disabled list,
    hot reload is on, and the startup scan skips the plugin, but the first
    cycle of the hot-reload watcher loads it and calls its [setup]; a reload
    of a plugin that was disabled after it was loaded calls [setup] again as
    well. *)
Theorem watcher_loads_disabled_plugin :
  ConfigManager.is_plugin_disabled (cfg_loader guarded_world) "secret" = Some true ∧
  MCPServer.hot_reload_enabled guarded_world = true ∧
  (let scanned := (PluginLoader.load_all_plugins guarded_world init_state).2 in
   loaded_plugins scanned !! "secret" = None ∧
   ¬ In (EvSetup "secret" secret_module) (trace scanned)) ∧
  (let watched :=
     ((PluginLoader.load_all_plugins guarded_world ;;;
       MCPServer.watch_start guarded_world ;;;
       MCPServer.watch_cycle guarded_world) init_state).2 in
   loaded_plugins watched !! "secret" = Some secret_module ∧
   In (EvSetup "secret" secret_module) (trace watched)) ∧
  (let st := State {[ "secret" := secret_module ]}
                   {[ "secret" := "plugins/tools/secret.py" ]}
                   {[ "tools.secret" ]} {[ "tools.secret" ]} [] ∅ [] in
   let reloaded := PluginLoader.reload_plugin guarded_world "secret" st in
   reloaded.1 = Ok true ∧
   In (EvSetup "secret" secret_module) (trace reloaded.2)).
Proof.
  split; [reflexivity|]. split; [reflexivity|]. split; [|split].
  - split; [vm_compute; reflexivity|].
    vm_compute. intros H.
    repeat (destruct H as [H|H]; [discriminate|]). exact H.
  - split; [vm_compute; reflexivity|].
    vm_compute. tauto.
  - split; [vm_compute; reflexivity|].
    vm_compute. tauto.
Qed.

(** * Further properties of the code *)

(** ** More on the configuration manager *)

Section config_extras.

Local Arguments String.append !_ _ / : simpl nomatch.

Lemma split_dot_nonempty s : PyStr.split_dot s ≠ [].
Proof.
  destruct s as [|c s]; simpl; [done|].
  destruct (Ascii.eqb c "."); [done|]. by destruct (PyStr.split_dot s).
Qed.

Lemma set_keys_cons d key key' keys x :
  ConfigManager.set_keys (VDict d) (key :: key' :: keys) x
  = (child ← ConfigManager.set_keys (default (VDict ∅) (d !! key)) (key' :: keys) x;
     Some (VDict (<[key := child]> d))).
Proof. reflexivity. Qed.

Lemma set_blocked_empty_dict keys : keys ≠ [] → ¬ set_blocked (VDict ∅) keys.
Proof.
  intros Hne Hb. inversion Hb as [v ks Hd|d k k' ks v Hk Hb']; subst; [done|].
  by rewrite lookup_empty in Hk.
Qed.

Lemma set_keys_blocked v keys x :
  keys ≠ [] →
  ConfigManager.set_keys v keys x = None ↔ set_blocked v keys.
Proof.
  revert v. induction keys as [|key keys IH]; [done|]. intros v _. split.
  - destruct v as [| | | | |d]; try (intros _; by constructor).
    destruct keys as [|key' keys]; [done|].
    rewrite set_keys_cons.
    destruct (d !! key) as [v|] eqn:Hk; cbn [default from_option id].
    + destruct (ConfigManager.set_keys v (key' :: keys) x) eqn:Hc;
        [by simpl|].
      intros _. apply blocked_deeper with v; [done|]. by apply IH.
    + destruct (ConfigManager.set_keys (VDict ∅) (key' :: keys) x) eqn:Hc;
        [by simpl|].
      apply IH in Hc; [|done]. by apply set_blocked_empty_dict in Hc.
  - intros Hb. inversion Hb as [v' ks Hd|d k k' ks v' Hk Hb']; subst.
    + by destruct v.
    + rewrite set_keys_cons, Hk. cbn [default from_option id].
      apply IH in Hb'; [|done]. by rewrite Hb'.
Qed.

Lemma diverge_nonempty keys keys' : diverge keys keys' → keys ≠ [] ∧ keys' ≠ [].
Proof. by destruct 1. Qed.

Lemma get_keys_empty_dict keys dflt :
  keys ≠ [] → ConfigManager.get_keys (VDict ∅) keys dflt = dflt.
Proof. destruct keys; [done|]. intros _. simpl. by rewrite lookup_empty. Qed.

Lemma set_keys_diverge keys keys' v x v' dflt :
  diverge keys keys' →
  ConfigManager.set_keys v keys x = Some v' →
  ConfigManager.get_keys v' keys' dflt = ConfigManager.get_keys v keys' dflt.
Proof.
  intros Hd. revert v v'.
  induction Hd as [key key' keys keys' Hne|key keys keys' Hd IH]; intros v v'.
  - destruct v as [| | | | |d]; try done.
    destruct keys as [|k2 keys].
    + intros [= <-]. simpl. by rewrite lookup_insert_ne.
    + rewrite set_keys_cons.
      destruct (ConfigManager.set_keys _ (k2 :: keys) x); [|done].
      simpl. intros [= <-]. simpl. by rewrite lookup_insert_ne.
  - destruct v as [| | | | |d]; try done.
    destruct (diverge_nonempty _ _ Hd) as [Hk Hk'].
    destruct keys as [|k2 keys]; [done|]. rewrite set_keys_cons.
    destruct (ConfigManager.set_keys _ (k2 :: keys) x) as [child|] eqn:Hc;
      [|done].
    simpl. intros [= <-].
    cbn [ConfigManager.get_keys]. rewrite lookup_insert_eq.
    rewrite (IH _ _ Hc). destruct (d !! key); cbn [default from_option id]; [done|].
    by apply get_keys_empty_dict.
Qed.

End config_extras.

(** ** The configuration as a store: what sharing does to [set] *)

Section config_store.

Import ConfigStore.

Lemma reaches_empty h l keys l' :
  h !! l = Some ∅ → reaches h (ODict l) keys l' → keys = [] ∧ l' = l.
Proof.
  intros Hl Hr. inversion Hr as [|? key ? v ? Hslot]; subst; [done|].
  unfold slot in Hslot. rewrite Hl in Hslot. cbn in Hslot.
  by rewrite lookup_empty in Hslot.
Qed.

Lemma tree_shaped_child h l key v :
  tree_shaped h (ODict l) → slot h l key = Some v → tree_shaped h v.
Proof.
  intros [Hclosed Hunshared] Hslot. split.
  - intros keys l' Hr. apply (Hclosed (key :: keys)). by econstructor.
  - intros keys1 keys2 l' H1 H2.
    assert (key :: keys1 = key :: keys2) as [= ->]; [|done].
    apply (Hunshared _ _ l'); by econstructor.
Qed.

Lemma tree_shaped_empty h l : h !! l = Some ∅ → tree_shaped h (ODict l).
Proof.
  intros Hl. split.
  - intros keys l' [_ ->]%reaches_empty; [|done]. by rewrite Hl.
  - intros keys1 keys2 l' [-> _]%reaches_empty [-> _]%reaches_empty; done.
Qed.

(** A [set] that goes through writes one entry of one mapping that was
    there before, on its own path; whatever else it writes is in mappings it
    has just made. *)
Lemma set_keys_effect keys h v x h' :
  set_keys h v keys x = Some h' →
  ∃ pre l_w k_w suf,
    keys = (pre ++ k_w :: suf)%list ∧
    reaches h v pre l_w ∧
    ∀ l k, is_Some (h !! l) → l ≠ l_w ∨ k ≠ k_w → slot h' l k = slot h l k.
Proof.
  revert h v. induction keys as [|key keys IH]; intros h v Hset.
  { destruct v; cbn in Hset; try done. by destruct (h !! l). }
  destruct v as [| | | | |l]; cbn in Hset; try done.
  destruct (h !! l) as [d|] eqn:Hl; [|done].
  destruct keys as [|key2 keys].
  - injection Hset as <-. exists [], l, key, []. split; [done|].
    split; [constructor|]. intros l0 k _ Hne. unfold slot.
    destruct (decide (l0 = l)) as [->|Hl0].
    + rewrite lookup_insert_eq, Hl. cbn.
      destruct Hne as [?|Hk]; [done|]. by rewrite lookup_insert_ne.
    + by rewrite lookup_insert_ne.
  - destruct (d !! key) as [v'|] eqn:Hkey.
    + destruct (IH h v' Hset) as (pre & l_w & k_w & suf & Heq & Hreach & Hslots).
      exists (key :: pre), l_w, k_w, suf. split; [by rewrite Heq|].
      split; [|done]. econstructor; [|done]. unfold slot. by rewrite Hl.
    + assert (Hfresh : h !! fresh (dom h) = None)
        by apply not_elem_of_dom, is_fresh.
      destruct (IH _ _ Hset) as (pre & l_w & k_w & suf & Heq & Hreach & Hslots).
      apply reaches_empty in Hreach as [-> ->]; [|by rewrite lookup_insert_eq].
      exists [], l, key, (key2 :: keys). split; [done|].
      split; [constructor|]. intros l0 k Hdom Hne.
      assert (l0 ≠ fresh (dom h))
        by (intros ->; rewrite Hfresh in Hdom; by destruct Hdom).
      rewrite Hslots; [| |by left].
      * unfold slot. rewrite lookup_insert_ne by done.
        destruct (decide (l0 = l)) as [->|Hl0].
        -- rewrite lookup_insert_eq, Hl. cbn.
           destruct Hne as [?|Hk]; [done|]. by rewrite lookup_insert_ne.
        -- by rewrite lookup_insert_ne.
      * rewrite lookup_insert_ne by done.
        destruct (decide (l0 = l)) as [->|Hl0].
        -- rewrite lookup_insert_eq. eauto.
        -- by rewrite lookup_insert_ne.
Qed.

(** A lookup sees only the mappings on its way. *)
Lemma get_keys_frame h h' keys v dflt :
  (∀ pre l k, reaches h v pre l → slot h' l k = slot h l k) →
  get_keys h' v keys dflt = get_keys h v keys dflt.
Proof.
  revert v. induction keys as [|key keys IH]; intros v Hsame; [done|].
  destruct v as [| | | | |l]; cbn [get_keys]; try done.
  rewrite (Hsame [] l key) by constructor.
  destruct (slot h l key) as [v'|] eqn:Hslot; [|done].
  apply IH. intros pre l' k Hr. apply (Hsame (key :: pre)). by econstructor.
Qed.

Lemma store_set_diverge keys keys' :
  diverge keys keys' →
  ∀ h v x h' dflt,
    tree_shaped h v →
    set_keys h v keys x = Some h' →
    get_keys h' v keys' dflt = get_keys h v keys' dflt.
Proof.
  induction 1 as [key key' ks ks' Hne | key ks ks' Hdiv IH];
    intros h v x h' dflt Htree Hset.
  - destruct (set_keys_effect _ _ _ _ _ Hset)
      as (pre & l_w & k_w & suf & Heq & Hreach & Hslots).
    destruct Htree as [Hclosed Hunshared].
    destruct v as [| | | | |l]; try done. cbn [get_keys].
    assert (Hroot : slot h' l key' = slot h l key').
    { apply Hslots; [apply (Hclosed [] l); constructor|].
      destruct pre as [|k0 pre].
      - right. injection Heq as -> _. done.
      - left. intros ->.
        by assert ([] = k0 :: pre) by (apply (Hunshared _ _ l_w); [constructor|done]). }
    rewrite Hroot. destruct (slot h l key') as [v'|] eqn:Hv'; [|done].
    apply get_keys_frame. intros pre1 l1 k Hr1. apply Hslots.
    + apply (Hclosed (key' :: pre1)). by econstructor.
    + left. intros ->.
      assert (key' :: pre1 = pre) as <-
        by (apply (Hunshared _ _ l_w); [by econstructor|done]).
      injection Heq as Hk _. by destruct Hne.
  - destruct v as [| | | | |l]; try done. cbn in Hset.
    destruct (h !! l) as [d|] eqn:Hl; [|done].
    destruct ks as [|key2 ks]; [by inversion Hdiv|].
    assert (Hold : slot h l key = d !! key) by (unfold slot; by rewrite Hl).
    cbn [get_keys]. rewrite Hold.
    destruct (d !! key) as [v'|] eqn:Hkey;
      destruct (set_keys_effect _ _ _ _ _ Hset)
        as (pre & l_w & k_w & suf & Heq & Hreach & Hslots).
    + rewrite Hslots, Hold.
      * apply (IH _ _ x); [|done]. apply (tree_shaped_child h l key); [done|].
        by rewrite Hold.
      * by rewrite Hl.
      * left. intros ->. destruct Htree as [_ Hunshared].
        assert ([] = key :: pre); [|done].
        apply (Hunshared _ _ l_w); [constructor|].
        econstructor; [|done]. by rewrite Hold.
    + assert (Hfresh : h !! fresh (dom h) = None)
        by apply not_elem_of_dom, is_fresh.
      assert (l ≠ fresh (dom h)) by (intros Heq'; by rewrite <- Heq', Hl in Hfresh).
      apply reaches_empty in Hreach as [-> ->]; [|by rewrite lookup_insert_eq].
      rewrite Hslots; [| |by left].
      * unfold slot at 1. rewrite lookup_insert_ne, lookup_insert_eq by done.
        cbn. rewrite lookup_insert_eq.
        rewrite (IH _ _ x h' dflt) by (done || by apply tree_shaped_empty, lookup_insert_eq).
        destruct ks' as [|key2' ks']; [by inversion Hdiv|]. cbn [get_keys].
        unfold slot. by rewrite lookup_insert_eq.
      * rewrite lookup_insert_ne, lookup_insert_eq by done. eauto.
Qed.

(** The mappings of the sample document, and how they are reached. *)
Lemma sample_heap_reaches keys l :
  reaches sample_heap (ODict 0) keys l →
  (keys = [] ∧ l = 0) ∨ (keys = ["a"] ∧ l = 1).
Proof.
  unfold sample_heap. intros Hr.
  inversion Hr as [|? key keys1 v ? Hslot Hr1]; subst; [by left|]. right.
  unfold slot in Hslot. rewrite lookup_insert_eq in Hslot. cbn in Hslot.
  apply lookup_singleton_Some in Hslot as [<- <-].
  inversion Hr1 as [|? key2 keys2 v2 ? Hslot2 Hr2]; subst; [done|].
  unfold slot in Hslot2.
  rewrite lookup_insert_ne, lookup_singleton_eq in Hslot2 by done.
  cbn in Hslot2. apply lookup_singleton_Some in Hslot2 as [<- <-].
  inversion Hr2.
Qed.

Lemma sample_heap_tree : tree_shaped sample_heap (ODict 0).
Proof.
  split.
  - intros keys l [[_ ->]|[_ ->]]%sample_heap_reaches;
      eexists; vm_compute; reflexivity.
  - intros keys1 keys2 l [[-> ->]|[-> ->]]%sample_heap_reaches
      [[-> ?]|[-> ?]]%sample_heap_reaches; done.
Qed.

End config_store.

(** X1.  In a configuration document that is a tree, as [json.load] returns
    it, a [set] that goes through leaves every other dotted path as it was:
    [get] of a path that parts from the written one at some key returns what
    it returned before, whatever object was stored. *)
Theorem set_keeps_other_paths
    (h h' : ConfigStore.heap) (config : ConfigStore.obj)
    (key_path other_path : string) (x dflt : ConfigStore.obj) :
  ConfigStore.tree_shaped h config →
  diverge (PyStr.split_dot key_path) (PyStr.split_dot other_path) →
  ConfigStore.set h config key_path x = Some h' →
  ConfigStore.get h' config other_path dflt
  = ConfigStore.get h config other_path dflt.
Proof.
  intros Htree Hdiv Hset. unfold ConfigStore.get.
  by apply (store_set_diverge _ _ Hdiv h config x h' dflt).
Qed.

Lemma set_keeps_other_paths_witness :
  ∃ h', ConfigStore.set ConfigStore.sample_heap (ConfigStore.ODict 0) "a.j.i"
          (ConfigStore.ODict 1) = Some h' ∧
        ConfigStore.get h' (ConfigStore.ODict 0) "a.k" ConfigStore.ONull
        = ConfigStore.ONum 1.
Proof.
  eexists. split; [vm_compute; reflexivity|].
  rewrite (set_keeps_other_paths ConfigStore.sample_heap _ (ConfigStore.ODict 0)
             "a.j.i" "a.k" (ConfigStore.ODict 1) ConfigStore.ONull).
  - vm_compute. reflexivity.
  - apply sample_heap_tree.
  - vm_compute. apply diverge_later, diverge_here. discriminate.
  - vm_compute. reflexivity.
Defined.

(** Without that, it fails: after [set("b", get("a"))] one mapping sits
    under ["a"] and under ["b"], and a [set] through ["a.k"] changes what
    [get] returns for ["b.k"], a path that parts from it at the first key. *)
Example shared_mapping_written_through :
  let h := ConfigStore.shared_heap in
  let config := ConfigStore.ODict 0 in
  diverge (PyStr.split_dot "a.k") (PyStr.split_dot "b.k") ∧
  ¬ ConfigStore.tree_shaped h config ∧
  ∃ h', ConfigStore.set h config "a.k" (ConfigStore.ONum 2) = Some h' ∧
        ConfigStore.get h config "b.k" ConfigStore.ONull = ConfigStore.ONum 1 ∧
        ConfigStore.get h' config "b.k" ConfigStore.ONull = ConfigStore.ONum 2.
Proof.
  split; [vm_compute; apply diverge_here; discriminate|]. split.
  - intros [_ Hunshared].
    assert (["a"] = ["b"]); [|done].
    apply (Hunshared _ _ 1); (econstructor; [|constructor]); by vm_compute.
  - eexists. split; [vm_compute; reflexivity|]. split; vm_compute; reflexivity.
Qed.

(** X2.  [set] raises exactly when the root, or a value that exists on the
    way to the last key, is not a mapping; a key that is absent never makes
    it fail, and when it raises the document is as it was (no result). *)
Theorem set_raises_iff_blocked (config : value) (key_path : string) (x : value) :
  ConfigManager.set config key_path x = None
  ↔ set_blocked config (PyStr.split_dot key_path).
Proof. apply set_keys_blocked, split_dot_nonempty. Qed.

(** What [load_config] installs: the defaults, or the interpolated document
    when its log level is accepted. *)
Lemma load_config_cases env level_ok parsed :
  ConfigManager.load_config env level_ok parsed = ConfigManager._get_default_config ∨
  ∃ d lvl,
    parsed = Some (VDict d) ∧
    ConfigManager.load_config env level_ok parsed
      = VDict (ConfigManager._process_env_vars env d) ∧
    ConfigManager.get (VDict (ConfigManager._process_env_vars env d))
      "server.log_level" (VStr "info") = VStr lvl ∧
    level_ok lvl = true.
Proof.
  unfold ConfigManager.load_config.
  destruct parsed as [v|]; [|by left].
  destruct v as [| | | | |d]; try by left.
  destruct (ConfigManager.get _ "server.log_level" _) as [| | |lvl| |] eqn:Hget;
    try by left.
  destruct (level_ok lvl) eqn:Hok; [|by left].
  right. by exists d, lvl.
Qed.

Lemma default_config_level :
  ConfigManager.get ConfigManager._get_default_config "server.log_level"
    (VStr "info") = VStr "info".
Proof. vm_compute. reflexivity. Qed.

Lemma set_raises_iff_blocked_witness :
  ConfigManager.set sample_document "n.x" (VStr "v") = None ∧
  ∃ config', ConfigManager.set sample_document "fresh.x" (VStr "v") = Some config'.
Proof.
  split.
  - apply (proj2 (set_raises_iff_blocked sample_document "n.x" (VStr "v"))).
    vm_compute. apply blocked_deeper with (VNum 3); [reflexivity|].
    by apply blocked_here.
  - destruct (ConfigManager.set sample_document "fresh.x" (VStr "v")) as [c|] eqn:H.
    + by exists c.
    + apply (proj1 (set_raises_iff_blocked sample_document "fresh.x" (VStr "v")))
        in H.
      exfalso. vm_compute in H.
      inversion H as [? ? Hd|? ? ? ? ? Hk Hb]; [discriminate|].
      vm_compute in Hk. discriminate.
Defined.

(** X3.  Whatever the file holds, and whether or not it can be read, the
    configuration [load_config] installs is a mapping whose log level is a
    string the logging module accepts, provided ["info"] is accepted. *)
Theorem load_config_level_accepted
    (env : gmap string string) (level_ok : string → bool)
    (parsed : option value) :
  level_ok "info" = true →
  let config := ConfigManager.load_config env level_ok parsed in
  is_dict config = true ∧
  ∃ lvl, ConfigManager.get config "server.log_level" (VStr "info") = VStr lvl ∧
         level_ok lvl = true.
Proof.
  intros Hinfo config. unfold config.
  destruct (load_config_cases env level_ok parsed)
    as [->|(d & lvl & _ & -> & Hget & Hok)].
  - split; [done|]. exists "info". by rewrite default_config_level.
  - split; [done|]. by exists lvl.
Qed.

Lemma load_config_level_accepted_witness :
  let config :=
    ConfigManager.load_config ∅ (λ lvl, String.eqb lvl "info")
      (Some (VDict {[ "server" := VDict {[ "log_level" := VStr "loud" ]} ]})) in
  is_dict config = true ∧
  ∃ lvl, ConfigManager.get config "server.log_level" (VStr "info") = VStr lvl ∧
         String.eqb lvl "info" = true.
Proof.
  apply (load_config_level_accepted ∅ (λ lvl, String.eqb lvl "info")).
  reflexivity.
Defined.

(** X4.  [is_plugin_disabled] answers [False] when [plugins.disabled] cannot
    be reached, and, when it is a list, answers whether the id is one of its
    elements; in both cases it does not raise. *)
Theorem is_plugin_disabled_list (config : value) (plugin_id : string) :
  (path_broken config ["plugins"; "disabled"] →
   ConfigManager.is_plugin_disabled config plugin_id = Some false) ∧
  (∀ items,
     path_stored config ["plugins"; "disabled"] (VList items) →
     ∃ b, ConfigManager.is_plugin_disabled config plugin_id = Some b ∧
          (b = true ↔ VStr plugin_id ∈ items)).
Proof.
  unfold ConfigManager.is_plugin_disabled, ConfigManager.get.
  change (PyStr.split_dot "plugins.disabled") with ["plugins"; "disabled"].
  split.
  - intros Hb. by rewrite (get_keys_broken _ _ _ Hb).
  - intros items Hs. rewrite (get_keys_stored _ _ _ _ Hs). simpl.
    eexists. split; [reflexivity|]. rewrite existsb_exists. split.
    + intros (v & Hin & Heq). destruct v; try done. simpl in Heq.
      apply String.eqb_eq in Heq as <-. by apply list_elem_of_In.
    + intros Hin. exists (VStr plugin_id). split; [by apply list_elem_of_In|].
      simpl. apply String.eqb_refl.
Qed.

Lemma is_plugin_disabled_list_witness :
  (∃ b, ConfigManager.is_plugin_disabled ConfigManager._get_default_config "probe"
          = Some b ∧
        (b = true ↔ VStr "probe" ∈ ([] : list value))) ∧
  (∃ b, ConfigManager.is_plugin_disabled guarded_config "secret" = Some b ∧
        (b = true ↔ VStr "secret" ∈ [VStr "secret"])).
Proof.
  split.
  - apply (proj2 (is_plugin_disabled_list ConfigManager._get_default_config "probe")).
    eapply stored_deeper; [reflexivity|].
    eapply stored_deeper; [reflexivity|]. constructor.
  - apply (proj2 (is_plugin_disabled_list guarded_config "secret")).
    eapply stored_deeper; [reflexivity|].
    eapply stored_deeper; [reflexivity|]. constructor.
Defined.

(** X5.  A dotted path made of keys that hold no dot reads exactly those
    keys, one after the other. *)
Theorem get_joined_keys (config : value) (keys : list string) (dflt : value) :
  keys ≠ [] →
  forallb dot_free keys = true →
  ConfigManager.get config (join_dot keys) dflt
  = ConfigManager.get_keys config keys dflt.
Proof.
  intros Hne Hfree. unfold ConfigManager.get. by rewrite split_dot_join.
Qed.

Lemma get_joined_keys_witness :
  ConfigManager.get sample_document (join_dot ["a"; "b"]) VNull
  = ConfigManager.get_keys sample_document ["a"; "b"] VNull.
Proof. apply get_joined_keys; [discriminate|reflexivity]. Defined.

(** ** Running a computation one step at a time *)

Section stepping.

Context {A B C : Type}.

Lemma bind_bind (m : M A) (k1 : A → M B) (k2 : B → M C) st :
  bind (bind m k1) k2 st = bind m (λ a, bind (k1 a) k2) st.
Proof. unfold bind. by destruct (m st) as [[a|e] st']. Qed.

Lemma bind_ret (a : A) (k : A → M B) st : bind (ret a) k st = k a st.
Proof. reflexivity. Qed.

Lemma bind_raise e (k : A → M B) st : bind (raise e) k st = (Exc e, st).
Proof. reflexivity. Qed.

Lemma bind_lift (r : result A) (k : A → M B) st :
  bind (lift r) k st = match r with Ok a => k a st | Exc e => (Exc e, st) end.
Proof. unfold bind, lift. by destruct r. Qed.

Lemma bind_modify f (k : unit → M B) st : bind (modify f) k st = k tt (f st).
Proof. reflexivity. Qed.

Lemma bind_get_state (k : state → M B) st : bind get_state k st = k st st.
Proof. reflexivity. Qed.

End stepping.

(** One primitive after the other, the state kept in constructor form. *)
Ltac step :=
  unfold logger, emit, set_loaded_plugins, set_plugin_paths,
    set_loaded_modules, set_sys_modules, set_plugin_dirs, set_file_mtimes;
  repeat (first [ rewrite bind_bind | rewrite bind_ret | rewrite bind_raise
                | rewrite bind_modify | rewrite bind_get_state ];
          cbn [loaded_plugins plugin_paths loaded_modules sys_modules
               plugin_dirs file_mtimes trace]).

(** ** More on unloading and reloading *)

Lemma elem_of_drop_names plugin_id names name :
  name ∈ drop_names plugin_id names ↔
  name ∈ names ∧ ∀ t, t ∈ plugin_types → name ≠ t ++ "." ++ plugin_id.
Proof.
  unfold drop_names, plugin_types. cbn [foldl]. split.
  - intros H. repeat (apply elem_of_difference in H as [H ?%not_elem_of_singleton]).
    split; [done|]. intros t Ht.
    repeat (apply elem_of_cons in Ht as [->|Ht]; [done|]).
    by apply elem_of_nil in Ht.
  - intros [H Hne].
    repeat (apply elem_of_difference; split;
            [|apply not_elem_of_singleton, Hne; repeat constructor]).
    done.
Qed.

Lemma unload_success
    (plugin_id file_path : string) (st : state) (m : pymodule) :
  loaded_plugins st !! plugin_id = Some m →
  plugin_paths st !! plugin_id = Some file_path →
  mod_teardown m ≠ Some Raises →
  ∃ st',
    PluginLoader.unload_plugin plugin_id st = (Ok true, st') ∧
    loaded_plugins st' = delete plugin_id (loaded_plugins st) ∧
    plugin_paths st' = delete plugin_id (plugin_paths st) ∧
    loaded_modules st' = drop_names plugin_id (loaded_modules st) ∧
    sys_modules st' = drop_names plugin_id (sys_modules st) ∧
    trace st' = (trace st ++ unload_events plugin_id m)%list ∧
    (PluginLoader.get_loaded_plugins st').1 = Ok (delete plugin_id (loaded_plugins st)).
Proof.
  intros Hm Hp Htd.
  unfold PluginLoader.unload_plugin, PluginLoader.get_loaded_plugins,
    unload_events, drop_names, plugin_types.
  cbn [for_each foldl]. step. rewrite Hm. unfold try_except.
  destruct (mod_teardown m) as [[]|]; [|done|]; unfold call; step;
    rewrite Hp; step; unfold ret, modify; cbn [trace];
    (eexists; split; [reflexivity|]);
    cbn [loaded_plugins plugin_paths loaded_modules sys_modules trace fst];
    rewrite <- ?app_assoc; done.
Qed.

(** X6.  Unloading a loaded plugin whose [teardown] is absent or returns:
    [unload_plugin] returns [True], calls [teardown] exactly once when it is
    defined, and removes the id from the loaded plugins and the plugin
    paths, and its module name under each of the four types from the loaded
    modules and from [sys.modules]; nothing else is removed. *)
Theorem unload_removes_plugin
    (plugin_id file_path : string) (st : state) (m : pymodule) :
  loaded_plugins st !! plugin_id = Some m →
  plugin_paths st !! plugin_id = Some file_path →
  mod_teardown m ≠ Some Raises →
  ∃ st',
    PluginLoader.unload_plugin plugin_id st = (Ok true, st') ∧
    loaded_plugins st' = delete plugin_id (loaded_plugins st) ∧
    plugin_paths st' = delete plugin_id (plugin_paths st) ∧
    loaded_modules st' = drop_names plugin_id (loaded_modules st) ∧
    sys_modules st' = drop_names plugin_id (sys_modules st) ∧
    trace st' = (trace st ++ unload_events plugin_id m)%list ∧
    (PluginLoader.get_loaded_plugins st').1 = Ok (delete plugin_id (loaded_plugins st)).
Proof. apply unload_success. Qed.

Lemma unload_removes_plugin_witness :
  ∃ st',
    PluginLoader.unload_plugin "probe" probe_loaded = (Ok true, st') ∧
    loaded_plugins st' = delete "probe" (loaded_plugins probe_loaded) ∧
    plugin_paths st' = delete "probe" (plugin_paths probe_loaded) ∧
    loaded_modules st' = drop_names "probe" (loaded_modules probe_loaded) ∧
    sys_modules st' = drop_names "probe" (sys_modules probe_loaded) ∧
    trace st' = (trace probe_loaded ++ unload_events "probe" probe_module)%list ∧
    (PluginLoader.get_loaded_plugins st').1
      = Ok (delete "probe" (loaded_plugins probe_loaded)).
Proof.
  apply (unload_removes_plugin "probe" "plugins/tools/probe.py" probe_loaded
           probe_module); [reflexivity|reflexivity|discriminate].
Defined.

(** X7.  Unloading an id that is not loaded returns [False] and changes
    nothing but the log, which gets a warning. *)
Theorem unload_not_loaded (plugin_id : string) (st : state) :
  loaded_plugins st !! plugin_id = None →
  PluginLoader.unload_plugin plugin_id st
  = (Ok false, add_trace [EvLog WARNING (MsgUnloadNotLoaded plugin_id)] st).
Proof.
  intros Hm. unfold PluginLoader.unload_plugin. step. rewrite Hm. by step.
Qed.

Lemma unload_not_loaded_witness :
  PluginLoader.unload_plugin "ghost" probe_loaded
  = (Ok false, add_trace [EvLog WARNING (MsgUnloadNotLoaded "ghost")] probe_loaded).
Proof. apply unload_not_loaded. vm_compute. reflexivity. Defined.

Lemma reload_no_type w plugin_id file_path st m :
  loaded_plugins st !! plugin_id = Some m →
  plugin_paths st !! plugin_id = Some file_path →
  PluginLoader.find_type_by_prefix (cfg_loader w) file_path plugin_types = Ok None →
  PluginLoader.reload_plugin w plugin_id st
  = (Ok false, add_trace [EvLog ERROR (MsgUnknownType plugin_id)] st).
Proof.
  intros Hm Hp Ht. unfold PluginLoader.reload_plugin. step. rewrite Hm, Hp.
  unfold try_except. rewrite bind_lift, Ht. by step.
Qed.

Lemma reload_type_error w plugin_id file_path st m e :
  loaded_plugins st !! plugin_id = Some m →
  plugin_paths st !! plugin_id = Some file_path →
  PluginLoader.find_type_by_prefix (cfg_loader w) file_path plugin_types = Exc e →
  PluginLoader.reload_plugin w plugin_id st
  = (Ok false, add_trace [EvLog ERROR (MsgReloadFailed plugin_id)] st).
Proof.
  intros Hm Hp Ht. unfold PluginLoader.reload_plugin. step. rewrite Hm, Hp.
  unfold try_except. rewrite bind_lift, Ht. by step.
Qed.

(** X8.  Reloading a loaded plugin whose stored path is under none of the
    configured directories, or when a configured directory is not a string,
    returns [False]: an error is logged, no [setup] or [teardown] is called,
    and the plugin stays registered as it was. *)
Theorem reload_unknown_type
    (w : world) (plugin_id file_path : string) (st : state) (m : pymodule) :
  loaded_plugins st !! plugin_id = Some m →
  plugin_paths st !! plugin_id = Some file_path →
  (PluginLoader.find_type_by_prefix (cfg_loader w) file_path plugin_types = Ok None →
   PluginLoader.reload_plugin w plugin_id st
   = (Ok false, add_trace [EvLog ERROR (MsgUnknownType plugin_id)] st)) ∧
  (∀ e,
     PluginLoader.find_type_by_prefix (cfg_loader w) file_path plugin_types = Exc e →
     PluginLoader.reload_plugin w plugin_id st
     = (Ok false, add_trace [EvLog ERROR (MsgReloadFailed plugin_id)] st)).
Proof.
  intros Hm Hp. split.
  - by apply (reload_no_type w plugin_id file_path st m).
  - intros e. by apply (reload_type_error w plugin_id file_path st m e).
Qed.

Lemma reload_unknown_type_witness :
  PluginLoader.reload_plugin probe_world "stray" stray_loaded
  = (Ok false, add_trace [EvLog ERROR (MsgUnknownType "stray")] stray_loaded).
Proof.
  apply (proj1 (reload_unknown_type probe_world "stray" "elsewhere/stray.py"
                  stray_loaded probe_module eq_refl eq_refl)).
  vm_compute. reflexivity.
Defined.


Section string_cancel.

Local Arguments String.append !_ _ / : simpl nomatch.

Lemma append_inv_tail (a b s : string) : a ++ s = b ++ s → a = b.
Proof.
  intros H. assert (Hlen : String.length a = String.length b).
  { apply (f_equal String.length) in H. rewrite !length_app in H. lia. }
  rewrite <- (substring_0_app a s), H, Hlen. apply substring_0_app.
Qed.

Lemma append_inv_head (s a b : string) : s ++ a = s ++ b → a = b.
Proof. induction s as [|c s IH]; simpl; [done|]. intros [= H]. auto. Qed.

End string_cancel.

(** X9.  The loaded plugins are keyed by id alone.  When the same id is
    loaded under two different types, both [setup]s run, both module names
    are in the loaded modules, and the entry and path of the id are those of
    the second load; the first module gets no [teardown]. *)
Theorem same_id_two_types
    (w : world) (plugin_id path1 path2 type1 type2 : string) (st : state)
    (m1 m2 : pymodule) :
  type1 ≠ type2 →
  type1 ++ "." ++ plugin_id ∉ loaded_modules st →
  type2 ++ "." ++ plugin_id ∉ loaded_modules st →
  spec_from_file_location w path1 = true → imported w path1 = Some m1 →
  mod_setup m1 = Some Returns →
  spec_from_file_location w path2 = true → imported w path2 = Some m2 →
  mod_setup m2 = Some Returns →
  let st1 := (PluginLoader._load_plugin_file w plugin_id path1 type1 st).2 in
  let st2 := (PluginLoader._load_plugin_file w plugin_id path2 type2 st1).2 in
  loaded_plugins st2 = <[plugin_id := m2]> (loaded_plugins st) ∧
  plugin_paths st2 = <[plugin_id := path2]> (plugin_paths st) ∧
  loaded_modules st2
    = {[type2 ++ "." ++ plugin_id]} ∪ ({[type1 ++ "." ++ plugin_id]} ∪ loaded_modules st) ∧
  trace st2 = (trace st ++
    [EvLog DEBUG (MsgImporting (type1 ++ "." ++ plugin_id) path1);
     EvLog DEBUG (MsgCallingSetup plugin_id);
     EvSetup plugin_id m1;
     EvLog INFO (MsgLoaded plugin_id type1);
     EvLog DEBUG (MsgImporting (type2 ++ "." ++ plugin_id) path2);
     EvLog DEBUG (MsgCallingSetup plugin_id);
     EvSetup plugin_id m2;
     EvLog INFO (MsgLoaded plugin_id type2)])%list.
Proof.
  intros Hne Hn1 Hn2 Hs1 Hi1 Hr1 Hs2 Hi2 Hr2 st1 st2. unfold st2, st1.
  rewrite (load_setup_returns w plugin_id path1 type1 st m1) by done.
  rewrite (load_setup_returns _ _ _ _ _ m2); try done.
  - cbn [snd add_trace add_plugin add_sys_module loaded_plugins plugin_paths
         loaded_modules trace].
    rewrite !insert_insert_eq, <- app_assoc. done.
  - cbn [snd add_trace add_plugin add_sys_module loaded_modules].
    intros [Heq%elem_of_singleton|Hin]%elem_of_union; [|done].
    by apply append_inv_tail in Heq.
Qed.

Lemma same_id_two_types_witness :
  let st1 := (PluginLoader._load_plugin_file twin_world "probe"
                "plugins/prompts/probe.py" "prompts" init_state).2 in
  let st2 := (PluginLoader._load_plugin_file twin_world "probe"
                "plugins/tools/probe.py" "tools" st1).2 in
  loaded_plugins st2 = <[ "probe" := probe_module ]> (loaded_plugins init_state) ∧
  plugin_paths st2
    = <[ "probe" := "plugins/tools/probe.py" ]> (plugin_paths init_state) ∧
  loaded_modules st2
    = {[ "tools" ++ "." ++ "probe" ]} ∪
      ({[ "prompts" ++ "." ++ "probe" ]} ∪ loaded_modules init_state) ∧
  trace st2 = (trace init_state ++
    [EvLog DEBUG (MsgImporting ("prompts" ++ "." ++ "probe") "plugins/prompts/probe.py");
     EvLog DEBUG (MsgCallingSetup "probe");
     EvSetup "probe" twin_module;
     EvLog INFO (MsgLoaded "probe" "prompts");
     EvLog DEBUG (MsgImporting ("tools" ++ "." ++ "probe") "plugins/tools/probe.py");
     EvLog DEBUG (MsgCallingSetup "probe");
     EvSetup "probe" probe_module;
     EvLog INFO (MsgLoaded "probe" "tools")])%list.
Proof.
  apply (same_id_two_types twin_world "probe" "plugins/prompts/probe.py"
           "plugins/tools/probe.py" "prompts" "tools" init_state twin_module
           probe_module); try reflexivity; try discriminate;
    apply not_elem_of_empty.
Defined.

(** ** The invariant of the loader *)

Section respects.

Context (R : relation state) `{!PreOrder R}.

Set Default Proof Using "Type*".

Lemma respects_ret {A} (a : A) : respects R (ret a).
Proof. intros st. reflexivity. Qed.

Lemma respects_raise {A} e : respects R (raise (A := A) e).
Proof. intros st. reflexivity. Qed.

Lemma respects_lift {A} (r : result A) : respects R (lift r).
Proof. intros st. reflexivity. Qed.

Lemma respects_get_state : respects R get_state.
Proof. intros st. reflexivity. Qed.

Lemma respects_bind {A B} (m : M A) (k : A → M B) :
  respects R m → (∀ a, respects R (k a)) → respects R (bind m k).
Proof.
  intros Hm Hk st. unfold bind. specialize (Hm st).
  destruct (m st) as [[a|e] st1]; [|done].
  etrans; [exact Hm|]. apply Hk.
Qed.

Lemma respects_try_except {A} (body : M A) (handler : exn → M A) :
  respects R body → (∀ e, respects R (handler e)) →
  respects R (try_except body handler).
Proof.
  intros Hm Hk st. unfold try_except. specialize (Hm st).
  destruct (body st) as [[a|e] st1]; [done|].
  etrans; [exact Hm|]. apply Hk.
Qed.

Lemma respects_for_each {A} (xs : list A) (body : A → M unit) :
  (∀ x, respects R (body x)) → respects R (for_each xs body).
Proof.
  intros Hb. induction xs as [|x xs IH]; simpl.
  - apply respects_ret.
  - apply respects_bind; [apply Hb | by intros _].
Qed.

Lemma respects_modify f : (∀ st, R st (f st)) → respects R (modify f).
Proof. intros Hf st. apply Hf. Qed.

Lemma respects_call o : respects R (call o).
Proof. destruct o; [apply respects_ret | apply respects_raise]. Qed.

Lemma respects_as_path v : respects R (as_path v).
Proof. destruct v; first [apply respects_ret | apply respects_raise]. Qed.

Lemma respects_os_listdir w p : respects R (os_listdir w p).
Proof.
  unfold os_listdir.
  repeat case_match; first [apply respects_ret | apply respects_raise].
Qed.

Lemma respects_os_path_getmtime w p : respects R (os_path_getmtime w p).
Proof.
  unfold os_path_getmtime.
  repeat case_match; first [apply respects_ret | apply respects_raise].
Qed.

Lemma respects_exec_module w p : respects R (exec_module w p).
Proof.
  unfold exec_module.
  repeat case_match; first [apply respects_ret | apply respects_raise].
Qed.

End respects.

(** The structure of a computation, read off its syntax, down to the
    updates of the state and the calls of the loader, which [prim] has to
    relate. *)
Ltac respects_step prim :=
  lazy beta zeta;
  lazymatch goal with
  | |- respects _ (bind _ _) => apply respects_bind; [apply _ | | intros ?]
  | |- respects _ (try_except _ _) =>
      apply respects_try_except; [apply _ | | intros ?]
  | |- respects _ (for_each _ _) => apply respects_for_each; [apply _ | intros ?]
  | |- respects _ (ret _) => apply respects_ret; apply _
  | |- respects _ (raise _) => apply respects_raise; apply _
  | |- respects _ (lift _) => apply respects_lift; apply _
  | |- respects _ get_state => apply respects_get_state; apply _
  | |- respects _ (call _) => apply respects_call; apply _
  | |- respects _ (as_path _) => apply respects_as_path; apply _
  | |- respects _ (os_listdir _ _) => apply respects_os_listdir; apply _
  | |- respects _ (os_path_getmtime _ _) =>
      apply respects_os_path_getmtime; apply _
  | |- respects _ (exec_module _ _) => apply respects_exec_module; apply _
  | |- respects _ _ => first [prim | case_match]
  end.

#[local] Instance keeps_inv_preorder : PreOrder keeps_inv.
Proof.
  split; unfold keeps_inv.
  - by intros st H.
  - intros st1 st2 st3 H1 H2 H. by apply H2, H1.
Qed.

#[local] Instance same_mtimes_preorder : PreOrder same_mtimes.
Proof.
  split; unfold same_mtimes.
  - by intros st.
  - intros st1 st2 st3 H1 H2. congruence.
Qed.

#[local] Instance untouched_preorder plugin_id : PreOrder (untouched plugin_id).
Proof.
  split.
  - intros st. split; [done|]. exists []. by rewrite app_nil_r.
  - intros st1 st2 st3 [Hl1 (e1 & Ht1 & Hf1)] [Hl2 (e2 & Ht2 & Hf2)].
    split; [congruence|]. exists (e1 ++ e2)%list.
    split; [|by apply Forall_app]. by rewrite Ht2, Ht1, app_assoc.
Qed.

(** The shapes of the state after a load, a reload and an unload. *)
Lemma load_shape w plugin_id file_path plugin_type st :
  let module_name := plugin_type ++ "." ++ plugin_id in
  let st' := (PluginLoader._load_plugin_file w plugin_id file_path plugin_type st).2 in
  ∃ evs,
    st' = add_trace evs st ∨
    st' = add_trace evs (add_sys_module module_name st) ∨
    ∃ m, st' = add_trace evs
                 (add_plugin plugin_id file_path module_name m
                    (add_sys_module module_name st)).
Proof.
  intros module_name st'. unfold st'.
  destruct (decide (module_name ∈ loaded_modules st)).
  { rewrite load_already_loaded by done. eauto. }
  destruct (spec_from_file_location w file_path) eqn:Hspec.
  2: { rewrite load_no_spec by done. eauto. }
  destruct (imported w file_path) as [m|] eqn:Himp.
  2: { rewrite load_exec_raises by done. eauto. }
  destruct (mod_setup m) as [[]|] eqn:Hsetup.
  - rewrite (load_setup_returns _ _ _ _ _ m) by done. eauto 6.
  - rewrite (load_setup_raises _ _ _ _ _ m) by done. eauto.
  - rewrite (load_no_setup _ _ _ _ _ m) by done. eauto.
Qed.

Lemma reload_shape w plugin_id st :
  let st' := (PluginLoader.reload_plugin w plugin_id st).2 in
  ∃ evs,
    st' = add_trace evs st ∨
    ∃ file_path plugin_type,
      st' = add_trace evs
              (PluginLoader._load_plugin_file w plugin_id file_path plugin_type
                 (drop_plugin plugin_id (plugin_type ++ "." ++ plugin_id) st)).2.
Proof.
  intros st'. unfold st'.
  destruct (loaded_plugins st !! plugin_id) as [m|] eqn:Hm.
  2: { unfold PluginLoader.reload_plugin. step. rewrite Hm. step. eauto. }
  destruct (plugin_paths st !! plugin_id) as [file_path|] eqn:Hp.
  2: { unfold PluginLoader.reload_plugin. step. rewrite Hm, Hp. step. eauto. }
  destruct (PluginLoader.find_type_by_prefix (cfg_loader w) file_path plugin_types)
    as [[plugin_type|]|e] eqn:Ht.
  - rewrite (reload_unfold w plugin_id st m file_path plugin_type) by done.
    eauto.
  - rewrite (reload_no_type w plugin_id file_path st m) by done. eauto.
  - rewrite (reload_type_error w plugin_id file_path st m e) by done. eauto.
Qed.

Lemma unload_shape plugin_id st :
  let st' := (PluginLoader.unload_plugin plugin_id st).2 in
  ∃ evs,
    st' = add_trace evs st ∨
    (plugin_paths st !! plugin_id = None ∧
     st' = add_trace evs
             (State (delete plugin_id (loaded_plugins st)) (plugin_paths st)
                    (loaded_modules st) (sys_modules st) (plugin_dirs st)
                    (file_mtimes st) (trace st))) ∨
    st' = add_trace evs
            (State (delete plugin_id (loaded_plugins st))
                   (delete plugin_id (plugin_paths st))
                   (drop_names plugin_id (loaded_modules st))
                   (drop_names plugin_id (sys_modules st))
                   (plugin_dirs st) (file_mtimes st) (trace st)).
Proof.
  intros st'. unfold st'.
  destruct (loaded_plugins st !! plugin_id) as [m|] eqn:Hm.
  2: { unfold PluginLoader.unload_plugin. step. rewrite Hm. step. eauto. }
  assert (mod_teardown m = Some Raises ∨ mod_teardown m ≠ Some Raises)
    as [Htd|Htd] by (destruct (mod_teardown m) as [[]|]; auto).
  { unfold PluginLoader.unload_plugin. step. rewrite Hm, Htd.
    unfold try_except, call. step. exists [EvTeardown m; EvLog ERROR (MsgUnloadFailed plugin_id)].
    left. unfold add_trace. cbn [snd trace]. by rewrite <- app_assoc. }
  destruct (plugin_paths st !! plugin_id) as [file_path|] eqn:Hp.
  - unfold PluginLoader.unload_plugin, drop_names, plugin_types.
    cbn [for_each foldl]. step. rewrite Hm. unfold try_except.
    destruct (mod_teardown m) as [[]|]; [|done|]; unfold call; step;
      rewrite Hp; step; unfold ret, modify; eexists; right; right;
      unfold add_trace; cbn [snd loaded_plugins plugin_paths loaded_modules
        sys_modules plugin_dirs file_mtimes trace];
      rewrite <- ?app_assoc; reflexivity.
  - unfold PluginLoader.unload_plugin. step. rewrite Hm. unfold try_except.
    destruct (mod_teardown m) as [[]|]; [|done|]; unfold call; step;
      rewrite Hp; unfold raise; cbv beta iota; step; unfold ret;
      eexists; right; left; (split; [done|]);
      unfold add_trace; cbn [snd loaded_plugins plugin_paths loaded_modules
        sys_modules plugin_dirs file_mtimes trace];
      rewrite <- ?app_assoc; reflexivity.
Qed.

Lemma loader_inv_add_trace evs st : loader_inv st → loader_inv (add_trace evs st).
Proof. done. Qed.

Lemma loader_inv_add_sys_module module_name st :
  loader_inv st → loader_inv (add_sys_module module_name st).
Proof.
  intros [H1 H2]. split; [done|]. cbn.
  etrans; [exact H2|]. apply union_subseteq_r.
Qed.

Lemma loader_inv_add_plugin plugin_id file_path module_name m st :
  loader_inv st →
  loader_inv (add_plugin plugin_id file_path module_name m
                (add_sys_module module_name st)).
Proof.
  intros [H1 H2]. split; cbn.
  - rewrite !dom_insert_L. by apply union_mono_l.
  - by apply union_mono_l.
Qed.

Lemma drop_names_mono plugin_id (names names' : gset string) :
  names ⊆ names' → drop_names plugin_id names ⊆ drop_names plugin_id names'.
Proof.
  intros Hsub name [Hin Hne]%elem_of_drop_names.
  apply elem_of_drop_names. split; [by apply Hsub|done].
Qed.

Lemma loader_inv_drop_plugin plugin_id module_name st :
  loader_inv st → loader_inv (drop_plugin plugin_id module_name st).
Proof.
  intros [H1 H2]. split; cbn.
  - rewrite dom_delete_L. by apply subseteq_difference_l.
  - by apply difference_mono_r.
Qed.

Lemma keeps_inv_load w plugin_id file_path plugin_type :
  respects keeps_inv
    (PluginLoader._load_plugin_file w plugin_id file_path plugin_type).
Proof.
  intros st Hinv.
  destruct (load_shape w plugin_id file_path plugin_type st)
    as (evs & [ -> | [ -> | (m & ->) ] ]).
  - by apply loader_inv_add_trace.
  - by apply loader_inv_add_trace, loader_inv_add_sys_module.
  - by apply loader_inv_add_trace, loader_inv_add_plugin.
Qed.

Lemma keeps_inv_reload w plugin_id :
  respects keeps_inv (PluginLoader.reload_plugin w plugin_id).
Proof.
  intros st Hinv.
  destruct (reload_shape w plugin_id st)
    as (evs & [ -> | (file_path & plugin_type & ->) ]).
  - by apply loader_inv_add_trace.
  - apply loader_inv_add_trace, keeps_inv_load.
    by apply loader_inv_drop_plugin.
Qed.

Lemma keeps_inv_unload plugin_id :
  respects keeps_inv (PluginLoader.unload_plugin plugin_id).
Proof.
  intros st [H1 H2].
  destruct (unload_shape plugin_id st) as (evs & [ -> | [ [Hp ->] | -> ] ]).
  - done.
  - split; cbn; [|done]. rewrite dom_delete_L. by apply subseteq_difference_l.
  - split; cbn.
    + rewrite !dom_delete_L. by apply difference_mono_r.
    + by apply drop_names_mono.
Qed.

Lemma keeps_inv_modify_other f :
  (∀ st, loaded_plugins (f st) = loaded_plugins st ∧
         plugin_paths (f st) = plugin_paths st ∧
         loaded_modules (f st) = loaded_modules st ∧
         sys_modules (f st) = sys_modules st) →
  respects keeps_inv (modify f).
Proof.
  intros Hf. apply respects_modify; [apply _|].
  intros st [H1 H2]. destruct (Hf st) as (E1 & E2 & E3 & E4).
  split; [by rewrite E1, E2 | by rewrite E3, E4].
Qed.

Ltac keeps_inv_prim :=
  first
    [ apply keeps_inv_load | apply keeps_inv_reload | apply keeps_inv_unload
    | unfold logger, emit, set_file_mtimes, set_plugin_dirs;
      apply keeps_inv_modify_other; intros ?; done ].

Lemma keeps_inv_load_all w : respects keeps_inv (PluginLoader.load_all_plugins w).
Proof.
  unfold PluginLoader.load_all_plugins, PluginLoader.load_plugins_by_type.
  repeat respects_step keeps_inv_prim.
Qed.

Lemma keeps_inv_watch_cycle w : respects keeps_inv (MCPServer.watch_cycle w).
Proof.
  unfold MCPServer.watch_cycle, MCPServer.watch_file.
  repeat respects_step keeps_inv_prim.
Qed.

Lemma keeps_inv_watch_start w : respects keeps_inv (MCPServer.watch_start w).
Proof. unfold MCPServer.watch_start. repeat respects_step keeps_inv_prim. Qed.

Lemma keeps_inv_run_op o : respects keeps_inv (run_op o).
Proof.
  destruct o; cbn [run_op];
    first [ apply keeps_inv_load_all | apply keeps_inv_load
          | apply keeps_inv_watch_start | apply keeps_inv_watch_cycle
          | repeat respects_step keeps_inv_prim ].
Qed.

Lemma loader_inv_run_ops ops st : loader_inv st → loader_inv (run_ops ops st).
Proof.
  revert st. induction ops as [|o ops IH]; intros st Hinv; [done|].
  apply IH. by apply keeps_inv_run_op.
Qed.

(** X10.  In a fresh loader, and after any sequence of scans, loads,
    reloads, unloads and watcher cycles, in whatever worlds, every loaded
    plugin has an entry in the plugin paths and every loaded module name is
    in [sys.modules]. *)
Theorem reachable_states_keep_invariant (ops : list op) :
  let st := run_ops ops init_state in
  dom (loaded_plugins st) ⊆ dom (plugin_paths st) ∧
  loaded_modules st ⊆ sys_modules st.
Proof. apply loader_inv_run_ops. split; done. Qed.

(** X11.  Hence, in every state the loader reaches, unloading a loaded
    plugin whose [teardown] is absent or returns goes through: it returns
    [True] and the id is no longer among the loaded plugins; the lookup of
    its path cannot fail. *)
Theorem unload_succeeds_when_reachable
    (ops : list op) (plugin_id : string) (m : pymodule) :
  let st := run_ops ops init_state in
  loaded_plugins st !! plugin_id = Some m →
  mod_teardown m ≠ Some Raises →
  ∃ st',
    PluginLoader.unload_plugin plugin_id st = (Ok true, st') ∧
    loaded_plugins st' !! plugin_id = None ∧
    plugin_paths st' !! plugin_id = None.
Proof.
  intros st Hm Htd.
  destruct (loader_inv_run_ops ops init_state) as [Hdom _]; [by split|].
  destruct (plugin_paths st !! plugin_id) as [file_path|] eqn:Hp.
  - destruct (unload_success plugin_id file_path st m Hm Hp Htd)
      as (st' & Hrun & Hl & Hpp & _).
    exists st'. split; [done|]. rewrite Hl, Hpp. by rewrite !lookup_delete_eq.
  - exfalso. apply not_elem_of_dom in Hp. apply Hp, Hdom.
    apply elem_of_dom. by exists m.
Qed.

Lemma unload_succeeds_when_reachable_witness :
  let ops := [OpLoadAll probe_world; OpWatchStart probe_world;
              OpWatchCycle probe_world; OpReload probe_world "probe"] in
  ∃ st',
    PluginLoader.unload_plugin "probe" (run_ops ops init_state) = (Ok true, st') ∧
    loaded_plugins st' !! "probe" = None ∧
    plugin_paths st' !! "probe" = None.
Proof.
  apply (unload_succeeds_when_reachable
           [OpLoadAll probe_world; OpWatchStart probe_world;
            OpWatchCycle probe_world; OpReload probe_world "probe"]
           "probe" probe_module).
  - vm_compute. reflexivity.
  - discriminate.
Defined.

(** ** The startup scan and the disabled list *)

Lemma untouched_modify plugin_id f :
  (∀ st, loaded_plugins (f st) !! plugin_id = loaded_plugins st !! plugin_id ∧
         trace (f st) = trace st) →
  respects (untouched plugin_id) (modify f).
Proof.
  intros Hf st. destruct (Hf st) as [Hl Ht]. split; [done|].
  exists []. split; [by rewrite app_nil_r|done].
Qed.

Lemma untouched_emit plugin_id e :
  (∀ m, e ≠ EvSetup plugin_id m) → respects (untouched plugin_id) (emit e).
Proof.
  intros He st. split; [done|]. exists [e]. split; [done|].
  by apply Forall_singleton.
Qed.

Ltac untouched_prim :=
  first
    [ unfold logger; apply untouched_emit; intros ?; discriminate
    | apply untouched_emit; intros ? [= ]; congruence
    | unfold set_loaded_plugins, set_plugin_paths, set_loaded_modules,
        set_sys_modules;
      apply untouched_modify; intros ?;
      cbn [loaded_plugins trace]; split; [|done];
      first [done | by apply lookup_insert_ne] ].

Lemma untouched_load_other w plugin_id other file_path plugin_type :
  other ≠ plugin_id →
  respects (untouched plugin_id)
    (PluginLoader._load_plugin_file w other file_path plugin_type).
Proof.
  intros Hne. unfold PluginLoader._load_plugin_file.
  repeat respects_step untouched_prim.
Qed.

Lemma untouched_scan w plugin_id plugin_type :
  ConfigManager.is_plugin_disabled (cfg_loader w) plugin_id = Some true →
  respects (untouched plugin_id) (PluginLoader.load_plugins_by_type w plugin_type).
Proof.
  intros Hdis. unfold PluginLoader.load_plugins_by_type.
  repeat respects_step
    ltac:(first [ untouched_prim
                | apply untouched_load_other; intros Heq; rewrite Heq in *;
                  congruence ]).
Qed.

(** X12.  The startup scan honours the disabled list: for a plugin id that
    [is_plugin_disabled] reports disabled, [load_all_plugins] leaves the
    entry of that id among the loaded plugins as it was and never calls a
    [setup] for it, whatever files are on disk. *)
Theorem scan_skips_disabled (w : world) (plugin_id : string) (st : state) :
  ConfigManager.is_plugin_disabled (cfg_loader w) plugin_id = Some true →
  let st' := (PluginLoader.load_all_plugins w st).2 in
  loaded_plugins st' !! plugin_id = loaded_plugins st !! plugin_id ∧
  ∃ evs, trace st' = (trace st ++ evs)%list ∧
         Forall (λ e, ∀ m, e ≠ EvSetup plugin_id m) evs.
Proof.
  intros Hdis. unfold PluginLoader.load_all_plugins.
  apply (respects_for_each (untouched plugin_id)).
  intros plugin_type. by apply untouched_scan.
Qed.

Lemma scan_skips_disabled_witness :
  let st' := (PluginLoader.load_all_plugins guarded_world init_state).2 in
  loaded_plugins st' !! "secret" = loaded_plugins init_state !! "secret" ∧
  ∃ evs, trace st' = (trace init_state ++ evs)%list ∧
         Forall (λ e, ∀ m, e ≠ EvSetup "secret" m) evs.
Proof. apply (scan_skips_disabled guarded_world "secret" init_state). reflexivity. Defined.

Section file_names.

Local Arguments String.append !_ _ / : simpl nomatch.

Lemma substring_split (s : string) (k : nat) :
  (k <= String.length s)%nat →
  s = String.substring 0 k s ++ String.substring k (String.length s - k) s.
Proof.
  revert k. induction s as [|c s IH]; intros k Hk.
  - simpl in Hk. by replace k with 0 by lia.
  - destruct k as [|k]; simpl.
    + f_equal. clear. induction s as [|c' s IH]; simpl; [done|by rewrite <- IH].
    + simpl in Hk. f_equal. apply IH. lia.
Qed.

Lemma endswith_inv (s p : string) :
  PyStr.endswith s p = true →
  s = String.substring 0 (String.length s - String.length p) s ++ p.
Proof.
  unfold PyStr.endswith. intros [Hle Heq]%andb_prop.
  apply Nat.leb_le in Hle. apply String.eqb_eq in Heq.
  rewrite (substring_split s (String.length s - String.length p)) at 1 by lia.
  f_equal. rewrite <- Heq at 3. f_equal. lia.
Qed.

(** A plugin file is named after its plugin id. *)
Lemma plugin_file_name filename :
  is_plugin_file filename = true →
  filename = PyStr.slice 0 3 filename ++ ".py".
Proof.
  unfold is_plugin_file. intros [Hend _]%andb_prop.
  apply endswith_inv in Hend. unfold PyStr.slice. rewrite Nat.sub_0_r.
  exact Hend.
Qed.

Lemma plugin_file_id_inj f1 f2 :
  is_plugin_file f1 = true → is_plugin_file f2 = true →
  PyStr.slice 0 3 f1 = PyStr.slice 0 3 f2 → f1 = f2.
Proof.
  intros H1%plugin_file_name H2%plugin_file_name Heq.
  rewrite H1, H2. by rewrite Heq.
Qed.

End file_names.

Lemma scan_unfold w plugin_type :
  PluginLoader.load_plugins_by_type w plugin_type =
  (directory <- as_path (ConfigManager.get_plugin_directory (cfg_loader w) plugin_type) ;;
   if negb (os_path_exists w directory) then
     logger WARNING (MsgDirectoryMissing directory)
   else
     logger INFO (MsgLoadingType plugin_type) ;;;
     filenames <- os_listdir w directory ;;
     for_each filenames (scan_file w plugin_type directory)).
Proof. reflexivity. Qed.

(** The scan of a directory that exists and is a directory. *)
Lemma scan_directory w plugin_type directory mtime listing st :
  ConfigManager.get_plugin_directory (cfg_loader w) plugin_type = VStr directory →
  fs w !! directory = Some (FsDir mtime listing) →
  PluginLoader.load_plugins_by_type w plugin_type st
  = for_each listing (scan_file w plugin_type directory)
      (add_trace [EvLog INFO (MsgLoadingType plugin_type)] st).
Proof.
  intros Hdir Hfs. rewrite scan_unfold, Hdir. cbn [as_path]. step.
  unfold os_path_exists, os_listdir. rewrite Hfs.
  rewrite bool_decide_eq_true_2 by eauto. cbn [negb]. by step.
Qed.

Lemma is_plugin_disabled_some config plugin_id items :
  ConfigManager.get config "plugins.disabled" (VList []) = VList items →
  ConfigManager.is_plugin_disabled config plugin_id
  = Some (existsb (str_eq_value plugin_id) items).
Proof. intros H. unfold ConfigManager.is_plugin_disabled. by rewrite H. Qed.

Lemma is_plugin_disabled_false config plugin_id items :
  ConfigManager.get config "plugins.disabled" (VList []) = VList items →
  VStr plugin_id ∉ items →
  ConfigManager.is_plugin_disabled config plugin_id = Some false.
Proof.
  intros H Hnot. rewrite (is_plugin_disabled_some _ _ items) by done. f_equal.
  apply not_true_is_false. rewrite existsb_exists.
  intros (v & Hin & Heq). destruct v; try done. simpl in Heq.
  apply String.eqb_eq in Heq as <-. by apply Hnot, list_elem_of_In.
Qed.

Lemma for_each_cons {A} (x : A) xs (body : A → M unit) st :
  (body x st).1 = Ok tt →
  for_each (x :: xs) body st = for_each xs body (body x st).2.
Proof.
  intros H. cbn [for_each]. unfold bind.
  destruct (body x st) as [[[]|e] st1]; [done|discriminate].
Qed.

Section scan_one_file.

Context (w : world) (plugin_type directory filename : string).
Context (items : list value) (m : pymodule).

Local Abbreviation plugin_id := (PyStr.slice 0 3 filename).
Local Abbreviation file_path := (PyStr.os_path_join directory filename).
Local Abbreviation module_name := (plugin_type ++ "." ++ plugin_id).

Hypothesis Hfile : is_plugin_file filename = true.
Hypothesis Hlist :
  ConfigManager.get (cfg_loader w) "plugins.disabled" (VList []) = VList items.
Hypothesis Henabled : VStr plugin_id ∉ items.
Hypothesis Hspec : spec_from_file_location w file_path = true.
Hypothesis Himp : imported w file_path = Some m.
Hypothesis Hsetup : mod_setup m = Some Returns.

Local Abbreviation registered' := (registered module_name).
Local Abbreviation entry := (has_entry plugin_id file_path module_name m).

Set Default Proof Using "Type*".

Lemma scan_file_returns f st : (scan_file w plugin_type directory f st).1 = Ok tt.
Proof.
  unfold scan_file. destruct (is_plugin_file f); [|done].
  cbv zeta. rewrite (is_plugin_disabled_some _ _ items) by done.
  destruct (existsb _ items); [done|]. apply load_returns.
Qed.

Lemma scan_file_registered f st :
  registered' st → registered' (scan_file w plugin_type directory f st).2.
Proof.
  unfold registered, scan_file. intros Hreg.
  destruct (is_plugin_file f); [|done].
  cbv zeta. rewrite (is_plugin_disabled_some _ _ items) by done.
  destruct (existsb _ items); [done|].
  destruct (load_shape w (PyStr.slice 0 3 f) (PyStr.os_path_join directory f)
              plugin_type st) as (evs & [ -> | [ -> | (m' & ->) ] ]);
    cbn [add_trace add_plugin add_sys_module loaded_modules]; [done..|].
  apply elem_of_union. by right.
Qed.

Lemma scan_file_registers st :
  registered' (scan_file w plugin_type directory filename st).2.
Proof.
  unfold registered, scan_file. rewrite Hfile. cbv zeta.
  rewrite (is_plugin_disabled_false _ _ items) by done.
  destruct (decide (module_name ∈ loaded_modules st)) as [Hin|Hin].
  - by rewrite load_already_loaded.
  - rewrite (load_setup_returns _ _ _ _ _ m) by done.
    cbn [snd add_trace add_plugin loaded_modules]. apply elem_of_union.
    left. by apply elem_of_singleton.
Qed.

Lemma scan_file_entry f st :
  entry st → entry (scan_file w plugin_type directory f st).2.
Proof.
  unfold has_entry, registered. intros Hentry.
  unfold scan_file. destruct (is_plugin_file f) eqn:Hf; [|done].
  cbv zeta. rewrite (is_plugin_disabled_some _ _ items) by done.
  destruct (existsb _ items); [done|].
  destruct (decide (PyStr.slice 0 3 f = plugin_id)) as [Heq|Hne].
  - assert (f = filename) as -> by by apply plugin_file_id_inj.
      destruct (decide (module_name ∈ loaded_modules st)) as [Hin|Hin].
    + by rewrite load_already_loaded.
    + rewrite (load_setup_returns _ _ _ _ _ m) by done.
      cbn [snd add_trace add_plugin add_sys_module loaded_plugins plugin_paths].
      intros _. by rewrite !lookup_insert_eq.
  - destruct (load_shape w (PyStr.slice 0 3 f) (PyStr.os_path_join directory f)
                plugin_type st) as (evs & [ -> | [ -> | (m' & ->) ] ]);
      cbn [add_trace add_plugin add_sys_module loaded_modules loaded_plugins
           plugin_paths]; [done..|].
    intros [Hin%elem_of_singleton|Hin]%elem_of_union.
    + apply append_inv_head, append_inv_head in Hin. by destruct Hne.
    + rewrite !lookup_insert_ne by done. by apply Hentry.
Qed.

Lemma scan_loop_registers listing st :
  filename ∈ listing ∨ registered' st →
  let out := for_each listing (scan_file w plugin_type directory) st in
  out.1 = Ok tt ∧ registered' out.2.
Proof.
  revert st. induction listing as [|f listing IH]; intros st Hcase.
  - destruct Hcase as [Hin|Hreg]; [by apply elem_of_nil in Hin|]. done.
  - rewrite for_each_cons by apply scan_file_returns. apply IH.
    destruct Hcase as [[<-|Hin]%elem_of_cons|Hreg].
    + right. apply scan_file_registers.
    + by left.
    + right. by apply scan_file_registered.
Qed.

Lemma scan_loop listing st :
  entry st →
  filename ∈ listing ∨ registered' st →
  let out := for_each listing (scan_file w plugin_type directory) st in
  out.1 = Ok tt ∧ entry out.2 ∧ registered' out.2.
Proof.
  revert st. induction listing as [|f listing IH]; intros st Hentry Hcase.
  - destruct Hcase as [Hin|Hreg]; [by apply elem_of_nil in Hin|]. done.
  - rewrite for_each_cons by apply scan_file_returns.
    apply IH; [by apply scan_file_entry|].
    destruct Hcase as [[<-|Hin]%elem_of_cons|Hreg].
    + right. apply scan_file_registers.
    + by left.
    + right. by apply scan_file_registered.
Qed.

End scan_one_file.



(** ** More on the watcher *)

Lemma same_mtimes_modify f :
  (∀ st, file_mtimes (f st) = file_mtimes st) → respects same_mtimes (modify f).
Proof. intros Hf st. apply Hf. Qed.

Ltac same_mtimes_prim :=
  unfold logger, emit, set_loaded_plugins, set_plugin_paths,
    set_loaded_modules, set_sys_modules;
  apply same_mtimes_modify; intros ?; reflexivity.

Lemma same_mtimes_load w plugin_id file_path plugin_type :
  respects same_mtimes
    (PluginLoader._load_plugin_file w plugin_id file_path plugin_type).
Proof.
  unfold PluginLoader._load_plugin_file. repeat respects_step same_mtimes_prim.
Qed.

Lemma same_mtimes_reload w plugin_id :
  respects same_mtimes (PluginLoader.reload_plugin w plugin_id).
Proof.
  unfold PluginLoader.reload_plugin.
  repeat respects_step ltac:(first [apply same_mtimes_load | same_mtimes_prim]).
Qed.

Lemma same_mtimes_watch_changed w directory filename st :
  respects same_mtimes (watch_changed w directory filename st).
Proof.
  unfold watch_changed.
  repeat respects_step
    ltac:(first [ apply same_mtimes_load | apply same_mtimes_reload
                | same_mtimes_prim ]).
Qed.

Lemma watch_file_seen w directory filename st n :
  let file_path := PyStr.os_path_join directory filename in
  fs w !! file_path = Some n →
  file_mtimes st !! file_path = Some (node_mtime n) →
  MCPServer.watch_file w directory filename st = (Ok tt, st).
Proof.
  intros file_path Hfs Hseen. unfold MCPServer.watch_file, try_except.
  cbv zeta. fold file_path. unfold os_path_getmtime. rewrite Hfs. step.
  by rewrite bool_decide_eq_true_2.
Qed.

Lemma watch_file_records w directory filename st n :
  let file_path := PyStr.os_path_join directory filename in
  fs w !! file_path = Some n →
  file_mtimes (MCPServer.watch_file w directory filename st).2 !! file_path
  = Some (node_mtime n).
Proof.
  intros file_path Hfs.
  destruct (decide (file_mtimes st !! file_path = Some (node_mtime n)))
    as [Hseen|Hnew].
  { by rewrite (watch_file_seen w directory filename st n). }
  set (seen := State (loaded_plugins st) (plugin_paths st) (loaded_modules st)
                 (sys_modules st) (plugin_dirs st)
                 (<[file_path := node_mtime n]> (file_mtimes st)) (trace st)).
  assert (Hrun : MCPServer.watch_file w directory filename st
            = try_except (watch_changed w directory filename st)
                (λ _, logger ERROR (MsgFileCheckFailed file_path)) seen).
  { unfold MCPServer.watch_file, try_except. cbv zeta. fold file_path.
    unfold os_path_getmtime. rewrite Hfs, bind_ret, bind_get_state.
    rewrite bool_decide_eq_false_2 by done.
    unfold set_file_mtimes. rewrite bind_modify. reflexivity. }
  rewrite Hrun. unfold try_except.
  pose proof (same_mtimes_watch_changed w directory filename st seen) as Hk.
  unfold same_mtimes in Hk.
  destruct (watch_changed w directory filename st seen) as [[[]|e] st2];
    cbn [fst snd file_mtimes logger emit modify] in *;
    rewrite Hk; apply lookup_insert_eq.
Qed.

(** X14.  Once the watcher has looked at a file, it leaves it alone until
    its modification time changes: the time is recorded whether the load or
    reload it triggered succeeded or not, and looking at the same file again
    in the same world does nothing. *)
Theorem watch_file_settles
    (w : world) (directory filename : string) (st : state) (n : fs_node) :
  let file_path := PyStr.os_path_join directory filename in
  fs w !! file_path = Some n →
  let st1 := (MCPServer.watch_file w directory filename st).2 in
  file_mtimes st1 !! file_path = Some (node_mtime n) ∧
  MCPServer.watch_file w directory filename st1 = (Ok tt, st1).
Proof.
  intros file_path Hfs st1.
  assert (Hrec : file_mtimes st1 !! file_path = Some (node_mtime n))
    by by apply watch_file_records.
  split; [done|]. by apply (watch_file_seen w directory filename st1 n).
Qed.

Lemma watch_file_settles_witness :
  let st1 := (MCPServer.watch_file faulty_world "plugins/tools" "faulty.py"
                init_state).2 in
  file_mtimes st1 !! "plugins/tools/faulty.py" = Some 12%Z ∧
  MCPServer.watch_file faulty_world "plugins/tools" "faulty.py" st1 = (Ok tt, st1).
Proof.
  apply (watch_file_settles faulty_world "plugins/tools" "faulty.py" init_state
           (FsFile 12 (Some faulty_module))).
  reflexivity.
Defined.

(** X15.  Hot reload never runs a [teardown]: whatever the worlds of its
    cycles and the state it starts from, the events the watcher adds hold no
    call of [teardown], although it reloads every loaded plugin whose file
    changed. *)
Theorem watcher_never_tears_down (ws : list world) (st : state) :
  ∃ evs, trace (watch_cycles ws st).2 = (trace st ++ evs)%list ∧
         Forall no_teardown evs.
Proof. apply (steady_watch_cycles ws st). Qed.

(** ** One plugin id at a time *)

Ltac untouched_prim' :=
  first
    [ untouched_prim
    | unfold set_loaded_plugins; apply untouched_modify; intros ?;
      cbn [loaded_plugins trace]; split; [|done]; by apply lookup_delete_ne ].

Lemma untouched_reload_other w plugin_id other :
  other ≠ plugin_id →
  respects (untouched plugin_id) (PluginLoader.reload_plugin w other).
Proof.
  intros Hne. unfold PluginLoader.reload_plugin.
  repeat respects_step
    ltac:(first [by apply untouched_load_other | untouched_prim']).
Qed.

Lemma untouched_unload_other plugin_id other :
  other ≠ plugin_id →
  respects (untouched plugin_id) (PluginLoader.unload_plugin other).
Proof.
  intros Hne. unfold PluginLoader.unload_plugin.
  repeat respects_step untouched_prim'.
Qed.

(** X16.  Loading, reloading or unloading one plugin id leaves every other
    id alone: the entry of the other id among the loaded plugins is what it
    was, and no [setup] is called for it. *)
Theorem other_plugins_untouched
    (w : world) (plugin_id other file_path plugin_type : string) (st : state) :
  other ≠ plugin_id →
  untouched plugin_id st
    (PluginLoader._load_plugin_file w other file_path plugin_type st).2 ∧
  untouched plugin_id st (PluginLoader.reload_plugin w other st).2 ∧
  untouched plugin_id st (PluginLoader.unload_plugin other st).2.
Proof.
  intros Hne. split; [|split].
  - by apply untouched_load_other.
  - by apply untouched_reload_other.
  - by apply untouched_unload_other.
Qed.

Lemma other_plugins_untouched_witness :
  untouched "stubborn" stubborn_loaded
    (PluginLoader._load_plugin_file probe_world "probe" "plugins/tools/probe.py"
       "tools" stubborn_loaded).2 ∧
  untouched "stubborn" stubborn_loaded
    (PluginLoader.reload_plugin probe_world "probe" stubborn_loaded).2 ∧
  untouched "stubborn" stubborn_loaded
    (PluginLoader.unload_plugin "probe" stubborn_loaded).2.
Proof.
  apply (other_plugins_untouched probe_world "stubborn" "probe"
           "plugins/tools/probe.py" "tools" stubborn_loaded).
  discriminate.
Defined.

(** ** When the startup scan returns, and when it does not *)

Lemma returns_ret {A} (a : A) : returns (ret a).
Proof. intros st. by exists a. Qed.

Lemma returns_modify f : returns (modify f).
Proof. intros st. by exists tt. Qed.

Lemma returns_bind {A B} (m : M A) (k : A → M B) :
  returns m → (∀ a, returns (k a)) → returns (bind m k).
Proof.
  intros Hm Hk st. unfold bind. destruct (Hm st) as [a Ha].
  destruct (m st) as [r st1]. cbn in Ha. subst r. apply Hk.
Qed.

Lemma returns_for_each {A} (xs : list A) (body : A → M unit) :
  (∀ x, x ∈ xs → returns (body x)) → returns (for_each xs body).
Proof.
  induction xs as [|x xs IH]; intros Hb; cbn [for_each].
  - apply returns_ret.
  - apply returns_bind.
    + apply Hb. by left.
    + intros _. apply IH. intros y Hy. apply Hb. by right.
Qed.

Lemma returns_load w plugin_id file_path plugin_type :
  returns (PluginLoader._load_plugin_file w plugin_id file_path plugin_type).
Proof. intros st. exists tt. apply load_returns. Qed.

Lemma returns_scan_file w plugin_type directory filename items :
  ConfigManager.get (cfg_loader w) "plugins.disabled" (VList []) = VList items →
  returns (scan_file w plugin_type directory filename).
Proof.
  intros Hlist. unfold scan_file. destruct (is_plugin_file filename).
  - cbv zeta. rewrite (is_plugin_disabled_some _ _ items) by done.
    destruct (existsb _ items); [apply returns_modify | apply returns_load].
  - apply returns_ret.
Qed.

Lemma returns_scan w plugin_type items :
  directory_ok w plugin_type →
  ConfigManager.get (cfg_loader w) "plugins.disabled" (VList []) = VList items →
  returns (PluginLoader.load_plugins_by_type w plugin_type).
Proof.
  intros (directory & Hdir & Hfs) Hlist st. rewrite scan_unfold, Hdir.
  cbn [as_path]. rewrite bind_ret. unfold os_path_exists, os_listdir.
  destruct (fs w !! directory) as [n|] eqn:Hn.
  - rewrite bool_decide_eq_true_2 by eauto. cbn [negb].
    destruct (Hfs n eq_refl) as (mtime & listing & ->). step.
    apply returns_for_each. intros filename _.
    by apply (returns_scan_file _ _ _ _ items).
  - rewrite bool_decide_eq_false_2 by (by intros []). cbn [negb].
    apply returns_modify.
Qed.


Lemma probe_world_directories plugin_type :
  plugin_type ∈ plugin_types → directory_ok probe_world plugin_type.
Proof.
  unfold plugin_types. intros Hin.
  repeat (apply elem_of_cons in Hin as [->|Hin]);
    [| | | |by apply elem_of_nil in Hin];
    (eexists; split; [vm_compute; reflexivity|]); intros n Hn;
    vm_compute in Hn; try discriminate.
  injection Hn as <-. eauto.
Qed.


(** Names that are no plugin files are passed over. *)
Lemma scan_passes_over w plugin_type directory before listing st :
  Forall (λ f, is_plugin_file f = false) before →
  for_each (before ++ listing)%list (scan_file w plugin_type directory) st
  = for_each listing (scan_file w plugin_type directory) st.
Proof.
  induction 1 as [|f before Hf _ IH]; [done|].
  cbn [app for_each]. unfold scan_file at 1. rewrite Hf. by rewrite bind_ret.
Qed.

(** X18.  When [plugins.disabled] is null, a boolean or a number, the scan
    of a type raises [TypeError] at the first plugin file of its directory,
    whatever names that are no plugin files the listing has before it: the
    membership test is outside every [try], so nothing of that directory is
    loaded and the exception reaches the caller of the scan. *)
Theorem scan_raises_on_malformed_disabled
    (w : world) (plugin_type directory filename : string) (mtime : Z)
    (before rest : list string) (v : value) (st : state) :
  ConfigManager.get_plugin_directory (cfg_loader w) plugin_type = VStr directory →
  fs w !! directory = Some (FsDir mtime (before ++ filename :: rest)) →
  Forall (λ f, is_plugin_file f = false) before →
  is_plugin_file filename = true →
  ConfigManager.get (cfg_loader w) "plugins.disabled" (VList []) = v →
  v = VNull ∨ (∃ b, v = VBool b) ∨ (∃ z, v = VNum z) →
  PluginLoader.load_plugins_by_type w plugin_type st
  = (Exc TypeError, add_trace [EvLog INFO (MsgLoadingType plugin_type)] st).
Proof.
  intros Hdir Hfs Hbefore Hfile Hget Hv.
  rewrite (scan_directory w plugin_type directory mtime
             (before ++ filename :: rest)) by done.
  rewrite scan_passes_over by done.
  cbn [for_each]. unfold scan_file at 1. rewrite Hfile. cbv zeta.
  unfold ConfigManager.is_plugin_disabled. rewrite Hget.
  by destruct Hv as [->|[[b ->]|[z ->]]].
Qed.

Lemma scan_raises_on_malformed_disabled_witness :
  PluginLoader.load_plugins_by_type careless_world "tools" init_state
  = (Exc TypeError, add_trace [EvLog INFO (MsgLoadingType "tools")] init_state).
Proof.
  apply (scan_raises_on_malformed_disabled careless_world "tools" "plugins/tools"
           "probe.py" 10 ["__pycache__"; "notes.txt"] [] VNull init_state);
    try (vm_compute; reflexivity).
  - repeat constructor.
  - by left.
Defined.

(** X20.  When the configured directory of a type is on disk but cannot be
    listed, being a file or a directory the process may not read, the scan
    of that type logs that it starts and raises [OSError]: [os.listdir] is
    outside every [try], so the exception reaches the caller, and the
    startup scan stops at the first such type. *)
Theorem scan_raises_on_unlistable_directory
    (w : world) (plugin_type directory : string) (n : fs_node) (st : state) :
  ConfigManager.get_plugin_directory (cfg_loader w) plugin_type = VStr directory →
  fs w !! directory = Some n →
  (∀ mtime listing, n ≠ FsDir mtime listing) →
  PluginLoader.load_plugins_by_type w plugin_type st
  = (Exc OSError, add_trace [EvLog INFO (MsgLoadingType plugin_type)] st) ∧
  (plugin_type = "resources" →
   PluginLoader.load_all_plugins w st
   = (Exc OSError, add_trace [EvLog INFO (MsgLoadingType plugin_type)] st)).
Proof.
  intros Hdir Hfs Hn.
  assert (Hscan : PluginLoader.load_plugins_by_type w plugin_type st
            = (Exc OSError,
               add_trace [EvLog INFO (MsgLoadingType plugin_type)] st)).
  { rewrite scan_unfold, Hdir. cbn [as_path]. step.
    unfold os_path_exists, os_listdir. rewrite Hfs.
    rewrite bool_decide_eq_true_2 by eauto. cbn [negb]. step.
    destruct n as [mtime listing| |]; [by destruct (Hn mtime listing)|done..]. }
  split; [done|]. intros ->.
  unfold PluginLoader.load_all_plugins, plugin_types. cbn [for_each].
  unfold bind at 1. by rewrite Hscan.
Qed.

Lemma scan_raises_on_unlistable_directory_witness :
  PluginLoader.load_plugins_by_type locked_world "tools" init_state
  = (Exc OSError, add_trace [EvLog INFO (MsgLoadingType "tools")] init_state).
Proof.
  apply (scan_raises_on_unlistable_directory locked_world "tools" "plugins/tools"
           (FsLocked 10) init_state); [vm_compute; reflexivity..|].
  intros mtime listing. discriminate.
Defined.

(** ** The watcher and a file that changed *)

Lemma reload_returns w plugin_id st :
  ∃ b, (PluginLoader.reload_plugin w plugin_id st).1 = Ok b.
Proof.
  destruct (loaded_plugins st !! plugin_id) as [m|] eqn:Hm.
  2: { unfold PluginLoader.reload_plugin. step. rewrite Hm. step. by eexists. }
  destruct (plugin_paths st !! plugin_id) as [file_path|] eqn:Hp.
  2: { unfold PluginLoader.reload_plugin. step. rewrite Hm, Hp. step.
       by eexists. }
  destruct (PluginLoader.find_type_by_prefix (cfg_loader w) file_path plugin_types)
    as [[plugin_type|]|e] eqn:Ht.
  - rewrite (reload_unfold w plugin_id st m file_path plugin_type) by done.
    by eexists.
  - rewrite (reload_no_type w plugin_id file_path st m) by done. by eexists.
  - rewrite (reload_type_error w plugin_id file_path st m e) by done.
    by eexists.
Qed.

(** X19.  When the watcher looks at the file of a loaded plugin and its
    modification time is not the recorded one, it records the new time, logs
    the change and reloads the plugin exactly once; whatever the reload
    answers, looking at the file returns normally. *)
Theorem watch_file_reloads_changed
    (w : world) (directory filename : string) (st : state) (n : fs_node)
    (m : pymodule) :
  let file_path := PyStr.os_path_join directory filename in
  let plugin_id := PyStr.slice 0 3 filename in
  fs w !! file_path = Some n →
  file_mtimes st !! file_path ≠ Some (node_mtime n) →
  loaded_plugins st !! plugin_id = Some m →
  MCPServer.watch_file w directory filename st
  = (Ok tt,
     (PluginLoader.reload_plugin w plugin_id
        (State (loaded_plugins st) (plugin_paths st) (loaded_modules st)
               (sys_modules st) (plugin_dirs st)
               (<[file_path := node_mtime n]> (file_mtimes st))
               (trace st ++ [EvLog INFO (MsgChangeDetected plugin_id)]))).2).
Proof.
  intros file_path plugin_id Hfs Hnew Hm.
  unfold MCPServer.watch_file, try_except. cbv zeta.
  fold file_path plugin_id.
  unfold os_path_getmtime. rewrite Hfs, bind_ret, bind_get_state.
  rewrite bool_decide_eq_false_2 by done.
  unfold set_file_mtimes. rewrite bind_modify, Hm.
  unfold logger, emit. rewrite bind_modify.
  cbn [loaded_plugins plugin_paths loaded_modules sys_modules plugin_dirs
       file_mtimes trace].
  match goal with
  | |- context [PluginLoader.reload_plugin w plugin_id ?s] =>
      destruct (reload_returns w plugin_id s) as [b Hb]; unfold bind;
      destruct (PluginLoader.reload_plugin w plugin_id s) as [r st2]
  end.
  cbn [fst] in Hb. subst r. reflexivity.
Qed.

Lemma watch_file_reloads_changed_witness :
  MCPServer.watch_file probe_world "plugins/tools" "probe.py" probe_loaded
  = (Ok tt,
     (PluginLoader.reload_plugin probe_world "probe"
        (State (loaded_plugins probe_loaded) (plugin_paths probe_loaded)
               (loaded_modules probe_loaded) (sys_modules probe_loaded)
               (plugin_dirs probe_loaded)
               (<[ "plugins/tools/probe.py" := 11%Z ]> (file_mtimes probe_loaded))
               (trace probe_loaded ++ [EvLog INFO (MsgChangeDetected "probe")]))).2).
Proof.
  apply (watch_file_reloads_changed probe_world "plugins/tools" "probe.py"
           probe_loaded (FsFile 11 (Some probe_module)) probe_module).
  - reflexivity.
  - vm_compute. discriminate.
  - vm_compute. reflexivity.
Defined.

(** ** The directories a poll cycle goes through *)

Lemma watch_cycle_unfold w :
  MCPServer.watch_cycle w =
  (try_except
     (st <- get_state ;; for_each (plugin_dirs st) (watch_directory w))
     (λ _, logger ERROR MsgCycleFailed) ;;;
   emit (EvSleep 5)).
Proof. reflexivity. Qed.

(** The state after a guarded body followed by an event. *)
Lemma guarded_then_emit_state (body : M unit) lvl msg e st :
  (try_except body (λ _, logger lvl msg) ;;; emit e) st
  = (Ok tt,
     add_trace (match (body st).1 with
                | Ok _ => [e]
                | Exc _ => [EvLog lvl msg; e]
                end) (body st).2).
Proof.
  unfold bind, try_except, logger, emit, modify, add_trace.
  destruct (body st) as [[[]|x] st1]; cbn [fst snd trace loaded_plugins
    plugin_paths loaded_modules sys_modules plugin_dirs file_mtimes]; [done|].
  by rewrite <- app_assoc.
Qed.

(** A cycle is its loop over the watcher's list, then one or two events. *)
Lemma watch_cycle_shape w st :
  let loop := for_each (plugin_dirs st) (watch_directory w) st in
  MCPServer.watch_cycle w st
  = (Ok tt,
     add_trace (match loop.1 with
                | Ok _ => [EvSleep 5]
                | Exc _ => [EvLog ERROR MsgCycleFailed; EvSleep 5]
                end) loop.2).
Proof.
  intros loop. rewrite watch_cycle_unfold, guarded_then_emit_state.
  by rewrite bind_get_state.
Qed.

Lemma watch_file_returns w directory filename st :
  (MCPServer.watch_file w directory filename st).1 = Ok tt.
Proof.
  unfold MCPServer.watch_file, try_except. cbv zeta.
  match goal with
  | |- (match ?body with _ => _ end).1 = _ => by destruct body as [[[]|e] st1]
  end.
Qed.

(** The watcher's table after one file: as it was, or with the time of that
    file. *)
Lemma watch_file_mtimes w directory filename st :
  let file_path := PyStr.os_path_join directory filename in
  let st' := (MCPServer.watch_file w directory filename st).2 in
  file_mtimes st' = file_mtimes st ∨
  ∃ n, fs w !! file_path = Some n ∧
       file_mtimes st' = <[file_path := node_mtime n]> (file_mtimes st).
Proof.
  intros file_path st'. unfold st'.
  destruct (fs w !! file_path) as [n|] eqn:Hfs.
  - destruct (decide (file_mtimes st !! file_path = Some (node_mtime n)))
      as [Hseen|Hnew].
    { left. by rewrite (watch_file_seen w directory filename st n). }
    right. exists n. split; [done|].
    set (seen := State (loaded_plugins st) (plugin_paths st) (loaded_modules st)
                   (sys_modules st) (plugin_dirs st)
                   (<[file_path := node_mtime n]> (file_mtimes st)) (trace st)).
    assert (Hrun : MCPServer.watch_file w directory filename st
              = try_except (watch_changed w directory filename st)
                  (λ _, logger ERROR (MsgFileCheckFailed file_path)) seen).
    { unfold MCPServer.watch_file, try_except. cbv zeta. fold file_path.
      unfold os_path_getmtime. rewrite Hfs, bind_ret, bind_get_state.
      rewrite bool_decide_eq_false_2 by done.
      unfold set_file_mtimes. rewrite bind_modify. reflexivity. }
    rewrite Hrun. unfold try_except.
    pose proof (same_mtimes_watch_changed w directory filename st seen) as Hk.
    unfold same_mtimes in Hk.
    destruct (watch_changed w directory filename st seen) as [[[]|e] st2];
      cbn [fst snd file_mtimes logger emit modify] in *; by rewrite Hk.
  - left. unfold MCPServer.watch_file, try_except. cbv zeta. fold file_path.
    unfold os_path_getmtime. rewrite Hfs, bind_raise. reflexivity.
Qed.

#[local] Instance same_mtime_at_preorder file_path :
  PreOrder (same_mtime_at file_path).
Proof.
  split; unfold same_mtime_at.
  - by intros st.
  - intros st1 st2 st3 H1 H2. congruence.
Qed.

Lemma same_mtime_at_watch_file w directory filename file_path :
  PyStr.os_path_join directory filename ≠ file_path →
  respects (same_mtime_at file_path) (MCPServer.watch_file w directory filename).
Proof.
  intros Hne st. unfold same_mtime_at.
  destruct (watch_file_mtimes w directory filename st) as [->|(n & _ & ->)];
    [done|]. by rewrite lookup_insert_ne.
Qed.

Lemma examined_watch_file w directory filename file_path st :
  examined w file_path st →
  examined w file_path (MCPServer.watch_file w directory filename st).2.
Proof.
  intros (n & Hfs & Hrec). exists n. split; [done|].
  destruct (watch_file_mtimes w directory filename st) as [->|(n' & Hfs' & ->)];
    [done|].
  destruct (decide (PyStr.os_path_join directory filename = file_path))
    as [Heq|Hne].
  - rewrite Heq in *. rewrite lookup_insert_eq. congruence.
  - by rewrite lookup_insert_ne.
Qed.

Lemma untouched_watch_file w directory filename plugin_id :
  PyStr.slice 0 3 filename ≠ plugin_id →
  respects (untouched plugin_id) (MCPServer.watch_file w directory filename).
Proof.
  intros Hne. unfold MCPServer.watch_file.
  repeat respects_step
    ltac:(first [ by apply untouched_load_other
                | by apply untouched_reload_other
                | untouched_prim'
                | unfold set_file_mtimes; apply untouched_modify; intros ?;
                  by cbn [loaded_plugins trace] ]).
Qed.

Lemma respects_for_each_in (R : relation state) `{!PreOrder R}
    {A} (xs : list A) (body : A → M unit) :
  (∀ x, x ∈ xs → respects R (body x)) → respects R (for_each xs body).
Proof.
  induction xs as [|x xs IH]; intros Hb; cbn [for_each].
  - by apply respects_ret.
  - apply respects_bind; [done| |].
    + apply Hb. by left.
    + intros _. apply IH. intros y Hy. apply Hb. by right.
Qed.

(** What holds of every listed plugin file holds of the loop over the
    list. *)
Lemma respects_watch_loop (R : relation state) `{!PreOrder R} w st :
  (∀ directory filename,
     listed w st directory filename →
     respects R (MCPServer.watch_file w directory filename)) →
  R st (for_each (plugin_dirs st) (watch_directory w) st).2.
Proof.
  intros Hfile. apply (respects_for_each_in R). intros dir Hdir st0.
  unfold watch_directory.
  destruct dir as [| | |directory| |]; cbn [as_path];
    try (rewrite bind_raise; reflexivity).
  rewrite bind_ret. destruct (os_path_exists w directory); cbn [negb];
    [|reflexivity].
  unfold os_listdir.
  destruct (fs w !! directory) as [[mtime listing| |]|] eqn:Hfs;
    try (rewrite bind_raise; reflexivity).
  rewrite bind_ret. apply (respects_for_each_in R).
  intros filename Hin. destruct (is_plugin_file filename) eqn:Hfile';
    [|by apply respects_ret].
  apply Hfile. split; [done|]. eauto.
Qed.

Lemma for_each_keeps {A} (P : state → Prop) (xs : list A) (body : A → M unit) st :
  (∀ x st, x ∈ xs → (body x st).1 = Ok tt ∧ (P st → P (body x st).2)) →
  (for_each xs body st).1 = Ok tt ∧ (P st → P (for_each xs body st).2).
Proof.
  revert st. induction xs as [|x xs IH]; intros st Hb; [done|].
  destruct (Hb x st) as [Hok Hkeep]; [by left|].
  rewrite for_each_cons by done.
  destruct (IH (body x st).2) as [Hok' Hkeep'].
  { intros y st' Hy. apply Hb. by right. }
  split; [done|]. auto.
Qed.

Lemma for_each_reaches {A} (P : state → Prop) (xs : list A) (body : A → M unit)
    (x0 : A) st :
  x0 ∈ xs →
  (∀ x st, x ∈ xs → (body x st).1 = Ok tt ∧ (P st → P (body x st).2)) →
  (∀ st, P (body x0 st).2) →
  (for_each xs body st).1 = Ok tt ∧ P (for_each xs body st).2.
Proof.
  intros Hin Hb Hx0. revert st.
  induction xs as [|x xs IH]; intros st; [by apply elem_of_nil in Hin|].
  destruct (Hb x st) as [Hok Hkeep]; [by left|].
  rewrite for_each_cons by done.
  assert (Hb' : ∀ y st', y ∈ xs →
            (body y st').1 = Ok tt ∧ (P st' → P (body y st').2))
    by (intros y st' Hy; apply Hb; by right).
  apply elem_of_cons in Hin as [<-|Hin].
  - destruct (for_each_keeps P xs body (body x0 st).2 Hb') as [Hok' Hkeep'].
    split; [done|]. apply Hkeep', Hx0.
  - by apply IH.
Qed.

Lemma watch_files_keep w file_path directory listing st :
  let loop := for_each listing (λ filename,
                if is_plugin_file filename
                then MCPServer.watch_file w directory filename
                else ret tt) st in
  loop.1 = Ok tt ∧ (examined w file_path st → examined w file_path loop.2).
Proof.
  apply (for_each_keeps (examined w file_path)). intros filename st0 _.
  destruct (is_plugin_file filename); [|done].
  split; [apply watch_file_returns | apply examined_watch_file].
Qed.

Lemma watch_directory_keeps w file_path dir st :
  (∃ directory, dir = VStr directory ∧
     ∀ n, fs w !! directory = Some n → ∃ mtime listing, n = FsDir mtime listing) →
  (watch_directory w dir st).1 = Ok tt ∧
  (examined w file_path st → examined w file_path (watch_directory w dir st).2).
Proof.
  intros (directory & -> & Hdir). unfold watch_directory. cbn [as_path].
  rewrite bind_ret. unfold os_path_exists, os_listdir.
  destruct (fs w !! directory) as [n|] eqn:Hfs.
  - rewrite bool_decide_eq_true_2 by eauto. cbn [negb].
    destruct (Hdir n eq_refl) as (mtime & listing & ->). rewrite bind_ret.
    apply watch_files_keep.
  - rewrite bool_decide_eq_false_2 by (by intros []). done.
Qed.

Lemma watch_directory_examines w directory filename st st0 :
  let file_path := PyStr.os_path_join directory filename in
  listed w st directory filename →
  is_Some (fs w !! file_path) →
  (watch_directory w (VStr directory) st0).1 = Ok tt ∧
  examined w file_path (watch_directory w (VStr directory) st0).2.
Proof.
  intros file_path (_ & mtime & listing & Hfs & Hin & Hfile) [n Hn].
  unfold watch_directory. cbn [as_path].
  rewrite bind_ret. unfold os_path_exists, os_listdir. rewrite Hfs.
  rewrite bool_decide_eq_true_2 by eauto. cbn [negb]. rewrite bind_ret.
  apply (for_each_reaches (examined w file_path) _ _ filename); [done| |].
  - intros f st1 _. destruct (is_plugin_file f); [|done].
    split; [apply watch_file_returns | apply examined_watch_file].
  - intros st1. rewrite Hfile. exists n. split; [done|].
    by apply watch_file_records.
Qed.

Lemma examined_add_trace w file_path evs st :
  examined w file_path st → examined w file_path (add_trace evs st).
Proof. done. Qed.

(** A cycle in which every entry of the list can be gone through looks at
    every listed plugin file. *)
Lemma watch_cycle_examines w st directory filename :
  dirs_listable w st →
  listed w st directory filename →
  is_Some (fs w !! PyStr.os_path_join directory filename) →
  examined w (PyStr.os_path_join directory filename)
    (MCPServer.watch_cycle w st).2.
Proof.
  intros Hdirs Hlisted Hfile. rewrite watch_cycle_shape. cbn [snd].
  apply examined_add_trace.
  apply (for_each_reaches
           (examined w (PyStr.os_path_join directory filename))
           (plugin_dirs st) (watch_directory w) (VStr directory) st).
  - by destruct Hlisted.
  - intros dir st0 Hdir. by apply watch_directory_keeps, Hdirs.
  - intros st0. by apply (watch_directory_examines w directory filename st).
Qed.

Lemma same_mtime_at_add_trace file_path evs st :
  same_mtime_at file_path st (add_trace evs st).
Proof. done. Qed.

Lemma untouched_add_trace plugin_id evs st :
  Forall (λ e, ∀ m, e ≠ EvSetup plugin_id m) evs →
  untouched plugin_id st (add_trace evs st).
Proof. intros Hevs. split; [done|]. by exists evs. Qed.

Ltac in_list :=
  repeat first [apply list_elem_of_here | apply list_elem_of_further].



(** The files the watcher started under [probe_world] has listed, whatever
    the configuration has become. *)
Lemma watching_listed directory filename :
  listed moved_world watching directory filename →
  directory = "plugins/tools" ∧ filename = "probe.py".
Proof.
  intros (Hdir & mtime & listing & Hfs & Hin & _).
  vm_compute in Hdir.
  repeat (apply elem_of_cons in Hdir as [[= ->]|Hdir]);
    [| | | |by apply elem_of_nil in Hdir]; vm_compute in Hfs; try discriminate.
  injection Hfs as _ <-. by apply list_elem_of_singleton in Hin as ->.
Qed.

